(** * Change-event propagation core of the unbundled-db playground

    A shallow embedding of the two Kafka consumers of the repository
    (the search indexer writing to Elasticsearch and the cache updater
    writing to Redis), of the in-memory test doubles of both stores, and
    of the handler copies the unit tests exercise, followed by the
    properties of the propagation contract.

    Modelling choices. An [async] function is a state transformer that
    settles with a value or an [Error]; what it mutated before rejecting
    stays. The state holds the downstream store, the wall clock as a
    sequence of readings, the list of calls made on the client and the
    console. Row identifiers are integers ([Z]); a property that is not
    there reads [None]. JavaScript [Map]s are [gmap]s: the order of
    insertion, which only [search] and [zrevrange] observe, is not
    kept. *)

From Stdlib Require Import ZArith Lia Ascii String.
From stdpp Require Import base option strings list gmap pretty.

Local Open Scope Z_scope.

(** ** The JavaScript runtime the consumers rely on *)

Module Js.

(** [Error] objects: the message, and [meta.statusCode] when the
    Elasticsearch client attached one. *)
Record Error := mkError {
  message : string;
  statusCode : option Z
}.

#[global] Instance Error_eq_dec : EqDecision Error.
Proof. solve_decision. Defined.

(** What reading a property of [undefined] raises. *)
Definition TypeError : Error :=
  mkError "Cannot read properties of undefined" None.

(** The settlement of an awaited promise. *)
Inductive Outcome (A : Type) : Type :=
| Resolved (a : A)
| Rejected (e : Error).
Arguments Resolved {A} a.
Arguments Rejected {A} e.

Inductive Level := Log | Warn | Err.

(** The world a consumer runs in: the downstream store [D] it owns,
    the wall clock ([clock k] is the k-th reading of [Date.now()],
    [ticks] counts the readings taken so far), the calls made on the
    downstream client (what [vi.fn] records in [mock.calls]) and the
    levels of the lines written to the console. *)
Record World (D C : Type) := mkWorld {
  store : D;
  clock : nat -> Z;
  ticks : nat;
  calls : list C;
  console : list Level
}.
Arguments mkWorld {D C} _ _ _ _ _.
Arguments store {D C} _.
Arguments clock {D C} _.
Arguments ticks {D C} _.
Arguments calls {D C} _.
Arguments console {D C} _.

(** An [async] function body: it settles and leaves a world behind.
    Mutations made before a rejection stay. *)
Definition Async (D C A : Type) : Type := World D C -> Outcome A * World D C.

Section Combinators.
Context {D C : Type}.

Definition ret {A} (a : A) : Async D C A := fun w => (Resolved a, w).

Definition throw {A} (e : Error) : Async D C A := fun w => (Rejected e, w).

Definition bind {A B} (m : Async D C A) (k : A -> Async D C B) : Async D C B :=
  fun w =>
    match m w with
    | (Resolved a, w') => k a w'
    | (Rejected e, w') => (Rejected e, w')
    end.

(** [try { body } catch (error) { handler }] *)
Definition try_catch {A} (body : Async D C A) (handler : Error -> Async D C A)
  : Async D C A :=
  fun w =>
    match body w with
    | (Resolved a, w') => (Resolved a, w')
    | (Rejected e, w') => handler e w'
    end.

Definition settle {A} (o : Outcome A) : Async D C A := fun w => (o, w).

(** [console.log], [console.warn], [console.error] *)
Definition console_write (l : Level) : Async D C unit :=
  fun w => (Resolved tt,
            mkWorld (store w) (clock w) (ticks w) (calls w) (console w ++ [l])).

(** [Date.now()] *)
Definition Date_now : Async D C Z :=
  fun w => (Resolved (clock w (ticks w)),
            mkWorld (store w) (clock w) (S (ticks w)) (calls w) (console w)).

(** [await client.method(args)]: the call [c] is recorded, then the
    client's method runs on the store. The call takes place at an
    instant of its own: the method is handed the clock reading of that
    instant, which is what a [Date.now()] inside the method returns. *)
Definition invoke {A} (c : C) (method : Z -> D -> Outcome A * D) : Async D C A :=
  fun w =>
    let '(o, d) := method (clock w (ticks w)) (store w) in
    (o, mkWorld d (clock w) (S (ticks w)) (calls w ++ [c]) (console w)).
End Combinators.

(** [x.toString()] on a number that may be [undefined]. *)
Definition toString {D C} (x : option Z) : Async D C string :=
  match x with
  | Some n => ret (pretty n)
  | None => throw TypeError
  end.

(** [`${x}`] inside a template literal. *)
Definition template_num (x : option Z) : string :=
  match x with Some n => pretty n | None => "undefined" end.

Definition template_str (x : option string) : string :=
  match x with Some s => s | None => "undefined" end.

(** Truthiness of a number and of a string, [undefined] included. *)
Definition truthy_num (x : option Z) : bool :=
  match x with Some n => negb (n =? 0) | None => false end.

Definition truthy_str (x : option string) : bool :=
  match x with Some s => negb (String.eqb s "") | None => false end.

End Js.

Declare Scope js_scope.
Delimit Scope js_scope with js.
Notation "x <- m ;; k" := (Js.bind m (fun x => k))
  (at level 20, m at level 99, k at level 200, only parsing) : js_scope.
Notation "m ;;; k" := (Js.bind m (fun _ => k))
  (at level 100, k at level 200, right associativity, only parsing) : js_scope.

(** ** [JSON.stringify] on the objects the cache updater serialises *)

Module JSON.

Definition quote : ascii := "034"%char.
Definition backslash : ascii := "092"%char.

Definition hex_digit (n : N) : ascii :=
  match n with
  | 0 => "0" | 1 => "1" | 2 => "2" | 3 => "3" | 4 => "4" | 5 => "5"
  | 6 => "6" | 7 => "7" | 8 => "8" | 9 => "9" | 10 => "a" | 11 => "b"
  | 12 => "c" | 13 => "d" | 14 => "e" | _ => "f"
  end%N%char.

(** One character of a string value: the quote, the backslash and the
    control characters are escaped, everything else is copied. *)
Definition escape (c : ascii) : string :=
  let n := Ascii.N_of_ascii c in
  if (n =? 34)%N then String backslash (String quote "")
  else if (n =? 92)%N then String backslash (String backslash "")
  else if (n =? 8)%N then String backslash "b"
  else if (n =? 9)%N then String backslash "t"
  else if (n =? 10)%N then String backslash "n"
  else if (n =? 12)%N then String backslash "f"
  else if (n =? 13)%N then String backslash "r"
  else if (n <? 32)%N then
    String backslash
      (String "u" (String "0" (String "0"
        (String (hex_digit (n / 16)) (String (hex_digit (n mod 16)) "")))))
  else String c "".

Fixpoint escape_all (s : string) : string :=
  match s with
  | EmptyString => ""
  | String c rest => escape c +:+ escape_all rest
  end.

Definition of_string (s : string) : string :=
  String quote (escape_all s) +:+ String quote "".

Definition of_number (n : Z) : string := pretty n.

(** A property whose value is [undefined] is left out. *)
Definition property (name : string) (value : option string) : list string :=
  match value with
  | Some v => [of_string name +:+ ":" +:+ v]
  | None => []
  end.

Fixpoint join (sep : string) (parts : list string) : string :=
  match parts with
  | [] => ""
  | [x] => x
  | x :: rest => x +:+ sep +:+ join sep rest
  end.

Definition object (properties : list string) : string :=
  "{" +:+ join "," properties +:+ "}".

End JSON.

(** ** Types ([src/types/index.ts]) *)

Module Post.
(** [interface Post]. After [JSON.parse] nothing guarantees that a
    property is there: [None] is a property that reads [undefined].
    The two dates travel as strings. *)
Record t := mk {
  id : option Z;
  title : option string;
  content : option string;
  author : option string;
  created_at : option string;
  updated_at : option string
}.

#[global] Instance eq_dec : EqDecision t.
Proof. solve_decision. Defined.
End Post.

Module Event.
(** [payload.source], with the members the tests fill in; the consumers
    never read it. *)
Record Source := mkSource {
  db : string;
  schema : string;
  table : string;
  source_ts_ms : Z
}.

Record Payload := mkPayload {
  before : option Post.t;
  after : option Post.t;
  source : Source;
  op : string;
  ts_ms : Z
}.

(** [interface DebeziumChangeEvent]; a parsed message without a
    [payload] member has [payload = None]. *)
Record DebeziumChangeEvent := mkEvent {
  payload : option Payload
}.

(** [event.payload], which throws when there is none to read from. *)
Definition get_payload {D C} (event : DebeziumChangeEvent)
  : Js.Async D C Payload :=
  match payload event with
  | Some p => Js.ret p
  | None => Js.throw Js.TypeError
  end.
End Event.

(** ** The Elasticsearch test double ([MockElasticsearch], test helper
    [mock-elasticsearch])

    Every method takes the clock reading of its call, as all client
    methods do; this double does not look at it. *)

Module MockElasticsearch.

Record IndexParams := mkIndexParams {
  index_name : string;
  index_id : string;
  document : Post.t
}.

Record DeleteParams := mkDeleteParams {
  delete_index : string;
  delete_id : string
}.

Record Response := mkResponse {
  _index : string;
  _id : string;
  result : string
}.

(** [private documents = new Map<string, Map<string, any>>()] *)
Record t := mk {
  documents : gmap string (gmap string Post.t)
}.

Definition empty : t := mk ∅.

Definition index (params : IndexParams) (now : Z) (es : t)
  : Js.Outcome Response * t :=
  let documents1 :=
    match documents es !! index_name params with
    | Some _ => documents es
    | None => <[index_name params := ∅]> (documents es)
    end in
  let indexDocs := default ∅ (documents1 !! index_name params) in
  let indexDocs' := <[index_id params := document params]> indexDocs in
  (Js.Resolved
     (mkResponse (index_name params) (index_id params)
        (if bool_decide (is_Some (indexDocs' !! index_id params))
         then "updated" else "created")),
   mk (<[index_name params := indexDocs']> documents1)).

Definition not_found : Js.Error := Js.mkError "Document not found" (Some 404).

Definition delete (params : DeleteParams) (now : Z) (es : t)
  : Js.Outcome Response * t :=
  match documents es !! delete_index params with
  | None => (Js.Rejected not_found, es)
  | Some indexDocs =>
      if bool_decide (is_Some (indexDocs !! delete_id params)) then
        (Js.Resolved
           (mkResponse (delete_index params) (delete_id params) "deleted"),
         mk (<[delete_index params := base.delete (delete_id params) indexDocs]>
               (documents es)))
      else (Js.Rejected not_found, es)
  end.

Definition getAllDocuments (index : string) (es : t) : gmap string Post.t :=
  default ∅ (documents es !! index).

Definition getDocumentCount (index : string) (es : t) : nat :=
  size (getAllDocuments index es).

Definition clear (es : t) : t := empty.

End MockElasticsearch.

(** ** The Redis test double ([MockRedis], test helper [mock-redis]) *)

Module MockRedis.

Record t := mk {
  data : gmap string string;
  expiry : gmap string Z;
  sortedSets : gmap string (gmap string Z)
}.

Definition empty : t := mk ∅ ∅ ∅.

Definition set (key value : string) (now : Z) (r : t) : Js.Outcome string * t :=
  (Js.Resolved "OK", mk (<[key := value]> (data r)) (expiry r) (sortedSets r)).

Definition setex (key : string) (seconds : Z) (value : string) (now : Z) (r : t)
  : Js.Outcome string * t :=
  (Js.Resolved "OK",
   mk (<[key := value]> (data r))
      (<[key := now + seconds * 1000]> (expiry r))
      (sortedSets r)).

(** One round of the [for (const key of keys)] loop of [del]. *)
Definition del_one (acc : Z * t) (key : string) : Z * t :=
  let '(count, r) := acc in
  ((if bool_decide (is_Some (data r !! key)) then count + 1 else count),
   mk (base.delete key (data r))
      (base.delete key (expiry r))
      (base.delete key (sortedSets r))).

Definition del (keys : list string) (now : Z) (r : t) : Js.Outcome Z * t :=
  let '(count, r') := foldl del_one (0, r) keys in
  (Js.Resolved count, r').

Definition zadd (key : string) (score : Z) (member : string) (now : Z) (r : t)
  : Js.Outcome Z * t :=
  let sortedSets1 :=
    match sortedSets r !! key with
    | Some _ => sortedSets r
    | None => <[key := ∅]> (sortedSets r)
    end in
  let set := default ∅ (sortedSets1 !! key) in
  let isNew := negb (bool_decide (is_Some (set !! member))) in
  (Js.Resolved (if isNew then 1 else 0),
   mk (data r) (expiry r) (<[key := <[member := score]> set]> sortedSets1)).

Definition zrem (key member : string) (now : Z) (r : t) : Js.Outcome Z * t :=
  match sortedSets r !! key with
  | None => (Js.Resolved 0, r)
  | Some set =>
      (Js.Resolved (if bool_decide (is_Some (set !! member)) then 1 else 0),
       mk (data r) (expiry r) (<[key := base.delete member set]> (sortedSets r)))
  end.

Definition expire (key : string) (seconds : Z) (now : Z) (r : t)
  : Js.Outcome Z * t :=
  if negb (bool_decide (is_Some (data r !! key)))
     && negb (bool_decide (is_Some (sortedSets r !! key)))
  then (Js.Resolved 0, r)
  else (Js.Resolved 1,
        mk (data r) (<[key := now + seconds * 1000]> (expiry r)) (sortedSets r)).

Definition getAllData (r : t) : gmap string string := data r.
Definition getAllSortedSets (r : t) : gmap string (gmap string Z) := sortedSets r.

(** [private checkExpiry(key)]: a deadline that is there, is not [0]
    (which is falsy) and lies in the past takes the key out of all
    three maps. *)
Definition checkExpiry (key : string) (now : Z) (r : t) : t :=
  match expiry r !! key with
  | Some expiryTime =>
      if negb (expiryTime =? 0) && (expiryTime <? now)
      then mk (base.delete key (data r))
              (base.delete key (expiry r))
              (base.delete key (sortedSets r))
      else r
  | None => r
  end.

(** [get]: [null] is [None]. *)
Definition get (key : string) (now : Z) (r : t) : Js.Outcome (option string) * t :=
  let r' := checkExpiry key now r in
  (Js.Resolved (data r' !! key), r').

Definition clear (r : t) : t := empty.

Definition quit (now : Z) (r : t) : Js.Outcome string * t :=
  (Js.Resolved "OK", clear r).

Definition ping (now : Z) (r : t) : Js.Outcome string * t :=
  (Js.Resolved "PONG", r).

End MockRedis.

(** ** [vi.fn]: a method whose next calls can be made to reject *)

Module Vi.

(** A store wrapped with the queues filled by [mockRejectedValueOnce],
    one queue per method name. *)
Record Mock (D : Type) := mkMock {
  target : D;
  rejectOnce : gmap string (list Js.Error)
}.
Arguments mkMock {D} _ _.
Arguments target {D} _.
Arguments rejectOnce {D} _.

Definition plain {D} (d : D) : Mock D := mkMock d ∅.

Definition mockRejectedValueOnce {D} (method : string) (e : Js.Error) (m : Mock D)
  : Mock D :=
  mkMock (target m)
         (<[method := default [] (rejectOnce m !! method) ++ [e]]> (rejectOnce m)).

(** A queued rejection is consumed instead of running the
    implementation; without one the implementation runs. *)
Definition fn {D A} (method : string) (impl : Z -> D -> Js.Outcome A * D)
  (now : Z) (m : Mock D) : Js.Outcome A * Mock D :=
  match rejectOnce m !! method with
  | Some (e :: rest) =>
      (Js.Rejected e, mkMock (target m) (<[method := rest]> (rejectOnce m)))
  | _ =>
      let '(o, d) := impl now (target m) in
      (o, mkMock d (rejectOnce m))
  end.

End Vi.

(** ** The two downstream clients, as the consumers use them *)

Inductive EsCall :=
| EsIndex (params : MockElasticsearch.IndexParams)
| EsDelete (params : MockElasticsearch.DeleteParams).

Class EsClient (D : Type) := {
  es_index : MockElasticsearch.IndexParams -> Z -> D
             -> Js.Outcome MockElasticsearch.Response * D;
  es_delete : MockElasticsearch.DeleteParams -> Z -> D
              -> Js.Outcome MockElasticsearch.Response * D
}.

#[global] Instance MockEs : EsClient MockElasticsearch.t := {
  es_index := MockElasticsearch.index;
  es_delete := MockElasticsearch.delete
}.

#[global] Instance ViEs {D} `{EsClient D} : EsClient (Vi.Mock D) := {
  es_index params := Vi.fn "index" (es_index params);
  es_delete params := Vi.fn "delete" (es_delete params)
}.

Inductive RedisCall :=
| Setex (key : string) (seconds : Z) (value : string)
| Del (keys : list string)
| Zadd (key : string) (score : Z) (member : string)
| Zrem (key member : string)
| Expire (key : string) (seconds : Z).

Class RedisClient (D : Type) := {
  redis_setex : string -> Z -> string -> Z -> D -> Js.Outcome string * D;
  redis_del : list string -> Z -> D -> Js.Outcome Z * D;
  redis_zadd : string -> Z -> string -> Z -> D -> Js.Outcome Z * D;
  redis_zrem : string -> string -> Z -> D -> Js.Outcome Z * D;
  redis_expire : string -> Z -> Z -> D -> Js.Outcome Z * D
}.

#[global] Instance MockRd : RedisClient MockRedis.t := {
  redis_setex := MockRedis.setex;
  redis_del := MockRedis.del;
  redis_zadd := MockRedis.zadd;
  redis_zrem := MockRedis.zrem;
  redis_expire := MockRedis.expire
}.

#[global] Instance ViRd {D} `{RedisClient D} : RedisClient (Vi.Mock D) := {
  redis_setex key seconds value := Vi.fn "setex" (redis_setex key seconds value);
  redis_del keys := Vi.fn "del" (redis_del keys);
  redis_zadd key score member := Vi.fn "zadd" (redis_zadd key score member);
  redis_zrem key member := Vi.fn "zrem" (redis_zrem key member);
  redis_expire key seconds := Vi.fn "expire" (redis_expire key seconds)
}.

Local Open Scope js_scope.

(** The document both consumers build from a row: the six properties,
    copied one by one. *)
Definition six_fields (post : Post.t) : Post.t :=
  Post.mk (Post.id post) (Post.title post) (Post.content post)
          (Post.author post) (Post.created_at post) (Post.updated_at post).

(** ** Search indexer consumer (the consumer that writes to Elasticsearch) *)

Module SearchIndexer.
Section Consumer.
Context {D : Type} `{EsClient D}.
Variable JSON_parse : string -> Js.Outcome Event.DebeziumChangeEvent.

Definition handleCreateOrUpdate (event : Event.DebeziumChangeEvent)
  : Js.Async D EsCall unit :=
  p <- Event.get_payload event ;;
  match Event.after p with
  | None => Js.console_write Js.Warn
  | Some post =>
      Js.console_write Js.Log ;;;
      Js.try_catch
        (id <- Js.toString (Post.id post) ;;
         let params :=
           MockElasticsearch.mkIndexParams "posts" id (six_fields post) in
         Js.invoke (EsIndex params) (es_index params) ;;;
         Js.console_write Js.Log)
        (fun error => Js.console_write Js.Err)
  end.

Definition handleDelete (event : Event.DebeziumChangeEvent)
  : Js.Async D EsCall unit :=
  p <- Event.get_payload event ;;
  match Event.before p with
  | None => Js.console_write Js.Warn
  | Some post =>
      Js.console_write Js.Log ;;;
      Js.try_catch
        (id <- Js.toString (Post.id post) ;;
         let params := MockElasticsearch.mkDeleteParams "posts" id in
         Js.invoke (EsDelete params) (es_delete params) ;;;
         Js.console_write Js.Log)
        (fun error =>
           if bool_decide (Js.statusCode error ≠ Some 404)
           then Js.console_write Js.Err
           else Js.ret tt)
  end.

(** The body of [eachMessage] once the message is parsed: read the
    operation code and switch on it. *)
Definition apply (changeEvent : Event.DebeziumChangeEvent)
  : Js.Async D EsCall unit :=
  p <- Event.get_payload changeEvent ;;
  let operation := Event.op p in
  Js.console_write Js.Log ;;;
  if String.eqb operation "c" || String.eqb operation "r"
     || String.eqb operation "u"
  then handleCreateOrUpdate changeEvent
  else if String.eqb operation "d" then handleDelete changeEvent
  else Js.console_write Js.Warn.

Definition eachMessage (value : option string) : Js.Async D EsCall unit :=
  match value with
  | None => Js.console_write Js.Warn
  | Some buffer =>
      Js.try_catch
        (changeEvent <- Js.settle (JSON_parse buffer) ;;
         apply changeEvent)
        (fun error => Js.console_write Js.Err)
  end.
End Consumer.
End SearchIndexer.

(** ** Cache updater consumer ([src/consumers/cache-updater.ts]) *)

Module CacheUpdater.
Definition CACHE_TTL : Z := 300.

(** [JSON.stringify({ id, title, content, author, created_at, updated_at })] *)
Definition cacheValue (post : Post.t) : string :=
  JSON.object
    (JSON.property "id" (JSON.of_number <$> Post.id post)
     ++ JSON.property "title" (JSON.of_string <$> Post.title post)
     ++ JSON.property "content" (JSON.of_string <$> Post.content post)
     ++ JSON.property "author" (JSON.of_string <$> Post.author post)
     ++ JSON.property "created_at" (JSON.of_string <$> Post.created_at post)
     ++ JSON.property "updated_at" (JSON.of_string <$> Post.updated_at post)).

Definition cacheKey (id : option Z) : string := "post:" +:+ Js.template_num id.

Definition authorKey (author : option string) : string :=
  "author:" +:+ Js.template_str author +:+ ":posts".

Section Consumer.
Context {D : Type} `{RedisClient D}.
Variable JSON_parse : string -> Js.Outcome Event.DebeziumChangeEvent.

Definition updateAuthorPostsList (author : option string) (postId : option Z)
  : Js.Async D RedisCall unit :=
  Js.try_catch
    (let key := authorKey author in
     score <- Js.Date_now ;;
     member <- Js.toString postId ;;
     Js.invoke (Zadd key score member) (redis_zadd key score member) ;;;
     Js.invoke (Expire key CACHE_TTL) (redis_expire key CACHE_TTL) ;;;
     Js.console_write Js.Log)
    (fun error => Js.console_write Js.Err).

Definition removeFromAuthorPostsList (author : option string) (postId : option Z)
  : Js.Async D RedisCall unit :=
  Js.try_catch
    (let key := authorKey author in
     member <- Js.toString postId ;;
     Js.invoke (Zrem key member) (redis_zrem key member) ;;;
     Js.console_write Js.Log)
    (fun error => Js.console_write Js.Err).

Definition handleCreateOrUpdate (event : Event.DebeziumChangeEvent)
  : Js.Async D RedisCall unit :=
  p <- Event.get_payload event ;;
  match Event.after p with
  | None => Js.console_write Js.Warn
  | Some post =>
      Js.console_write Js.Log ;;;
      Js.try_catch
        (let key := cacheKey (Post.id post) in
         let value := cacheValue post in
         Js.invoke (Setex key CACHE_TTL value)
                   (redis_setex key CACHE_TTL value) ;;;
         Js.console_write Js.Log ;;;
         updateAuthorPostsList (Post.author post) (Post.id post))
        (fun error => Js.console_write Js.Err)
  end.

Definition handleDelete (event : Event.DebeziumChangeEvent)
  : Js.Async D RedisCall unit :=
  p <- Event.get_payload event ;;
  match Event.before p with
  | None => Js.console_write Js.Warn
  | Some post =>
      Js.console_write Js.Log ;;;
      Js.try_catch
        (let key := cacheKey (Post.id post) in
         Js.invoke (Del [key]) (redis_del [key]) ;;;
         Js.console_write Js.Log ;;;
         removeFromAuthorPostsList (Post.author post) (Post.id post))
        (fun error => Js.console_write Js.Err)
  end.

Definition apply (changeEvent : Event.DebeziumChangeEvent)
  : Js.Async D RedisCall unit :=
  p <- Event.get_payload changeEvent ;;
  let operation := Event.op p in
  Js.console_write Js.Log ;;;
  if String.eqb operation "c" || String.eqb operation "r"
     || String.eqb operation "u"
  then handleCreateOrUpdate changeEvent
  else if String.eqb operation "d" then handleDelete changeEvent
  else Js.console_write Js.Warn.

Definition eachMessage (value : option string) : Js.Async D RedisCall unit :=
  match value with
  | None => Js.console_write Js.Warn
  | Some buffer =>
      Js.try_catch
        (changeEvent <- Js.settle (JSON_parse buffer) ;;
         apply changeEvent)
        (fun error => Js.console_write Js.Err)
  end.
End Consumer.
End CacheUpdater.

(** ** The handlers as the unit tests run them

    Each unit-test file carries its own copy of the handlers, taking the
    client as an argument ([search_indexer.test.ts],
    [cache-updater.test.ts]). *)

Module SearchIndexerTest.
Section Handlers.
Context {D : Type} `{EsClient D}.

Definition handleCreateOrUpdate (event : Event.DebeziumChangeEvent)
  : Js.Async D EsCall unit :=
  p <- Event.get_payload event ;;
  match Event.after p with
  | None => Js.console_write Js.Warn
  | Some post =>
      if negb (Js.truthy_num (Post.id post))
         || negb (Js.truthy_str (Post.title post))
         || negb (Js.truthy_str (Post.content post))
         || negb (Js.truthy_str (Post.author post))
      then Js.console_write Js.Warn
      else
        Js.console_write Js.Log ;;;
        id <- Js.toString (Post.id post) ;;
        let params :=
          MockElasticsearch.mkIndexParams "posts" id (six_fields post) in
        Js.invoke (EsIndex params) (es_index params) ;;;
        Js.console_write Js.Log
  end.

Definition handleDelete (event : Event.DebeziumChangeEvent)
  : Js.Async D EsCall unit :=
  p <- Event.get_payload event ;;
  match Event.before p with
  | None => Js.console_write Js.Warn
  | Some post =>
      Js.console_write Js.Log ;;;
      Js.try_catch
        (id <- Js.toString (Post.id post) ;;
         let params := MockElasticsearch.mkDeleteParams "posts" id in
         Js.invoke (EsDelete params) (es_delete params) ;;;
         Js.console_write Js.Log)
        (fun error =>
           if bool_decide (Js.statusCode error ≠ Some 404)
           then Js.console_write Js.Err ;;; Js.throw error
           else Js.ret tt)
  end.
End Handlers.
End SearchIndexerTest.

Module CacheUpdaterTest.
Definition CACHE_TTL : Z := 300.

Section Handlers.
Context {D : Type} `{RedisClient D}.

Definition updateAuthorPostsList (author : option string) (postId : option Z)
  : Js.Async D RedisCall unit :=
  let key := CacheUpdater.authorKey author in
  score <- Js.Date_now ;;
  member <- Js.toString postId ;;
  Js.invoke (Zadd key score member) (redis_zadd key score member) ;;;
  Js.invoke (Expire key CACHE_TTL) (redis_expire key CACHE_TTL) ;;;
  Js.console_write Js.Log.

Definition removeFromAuthorPostsList (author : option string) (postId : option Z)
  : Js.Async D RedisCall unit :=
  let key := CacheUpdater.authorKey author in
  member <- Js.toString postId ;;
  Js.invoke (Zrem key member) (redis_zrem key member) ;;;
  Js.console_write Js.Log.

Definition handleCreateOrUpdate (event : Event.DebeziumChangeEvent)
  : Js.Async D RedisCall unit :=
  p <- Event.get_payload event ;;
  match Event.after p with
  | None => Js.console_write Js.Warn
  | Some post =>
      Js.console_write Js.Log ;;;
      let key := CacheUpdater.cacheKey (Post.id post) in
      let value := CacheUpdater.cacheValue post in
      Js.invoke (Setex key CACHE_TTL value)
                (redis_setex key CACHE_TTL value) ;;;
      Js.console_write Js.Log ;;;
      updateAuthorPostsList (Post.author post) (Post.id post)
  end.

Definition handleDelete (event : Event.DebeziumChangeEvent)
  : Js.Async D RedisCall unit :=
  p <- Event.get_payload event ;;
  match Event.before p with
  | None => Js.console_write Js.Warn
  | Some post =>
      Js.console_write Js.Log ;;;
      let key := CacheUpdater.cacheKey (Post.id post) in
      Js.invoke (Del [key]) (redis_del [key]) ;;;
      Js.console_write Js.Log ;;;
      removeFromAuthorPostsList (Post.author post) (Post.id post)
  end.
End Handlers.
End CacheUpdaterTest.

(** ** Running a consumer, and the records the tests feed it *)

Definition fresh {D C} (d : D) (clock : nat -> Z) : Js.World D C :=
  Js.mkWorld d clock 0 [] [].

Definition settled_ok {A D C} (r : Js.Outcome A * Js.World D C) : Prop :=
  ∃ a, r.1 = Js.Resolved a.

Definition settled_error {A D C} (r : Js.Outcome A * Js.World D C) : Prop :=
  ∃ e, r.1 = Js.Rejected e.

Definition test_source : Event.Source := Event.mkSource "blog_db" "public" "posts" 0.

(** [createMockDebeziumEvent({ op, before, after })] *)
Definition createMockDebeziumEvent (op : string) (before after : option Post.t)
  : Event.DebeziumChangeEvent :=
  Event.mkEvent (Some (Event.mkPayload before after test_source op 0)).

Definition test_post : Post.t :=
  Post.mk (Some 1) (Some "Test Post") (Some "Test Content") (Some "Test Author")
          (Some "2024-01-01T00:00:00.000Z") (Some "2024-01-01T00:00:00.000Z").

(** The row of the test "should skip event with missing required
    fields": only [id] is there. *)
Definition id_only_post : Post.t := Post.mk (Some 1) None None None None None.

(** A wall clock that moves on by one millisecond at every reading. *)
Definition ticking (k : nat) : Z := 1700000000000 + Z.of_nat k.

(** A wall clock that stands still. *)
Definition frozen (t : Z) (k : nat) : Z := t.

(** [JSON.parse] restricted to the finitely many messages of a test run:
    a listed message parses to its event, anything else is a
    [SyntaxError]. *)
Definition SyntaxError : Js.Error := Js.mkError "Unexpected token" None.

Definition parse_table (known : list (string * Event.DebeziumChangeEvent))
    (buffer : string) : Js.Outcome Event.DebeziumChangeEvent :=
  match list_find (fun entry => String.eqb entry.1 buffer) known with
  | Some (_, (_, event)) => Js.Resolved event
  | None => Js.Rejected SyntaxError
  end.

(** ** The net effect of [apply] on the two doubles

    Closed descriptions of what the consumers leave in the stores,
    proved below to agree with the handlers. *)

Definition posts_params (i : Z) (post : Post.t) : MockElasticsearch.IndexParams :=
  MockElasticsearch.mkIndexParams "posts" (pretty i) (six_fields post).

Definition is_upsert_code (operation : string) : bool :=
  String.eqb operation "c" || String.eqb operation "r" || String.eqb operation "u".

(** What [SearchIndexer.apply] leaves in the Elasticsearch double. *)
Definition search_effect (event : Event.DebeziumChangeEvent)
    (es : MockElasticsearch.t) : MockElasticsearch.t :=
  match Event.payload event with
  | None => es
  | Some p =>
      if is_upsert_code (Event.op p) then
        match Event.after p with
        | Some post =>
            match Post.id post with
            | Some i => (MockElasticsearch.index (posts_params i post) 0 es).2
            | None => es
            end
        | None => es
        end
      else if String.eqb (Event.op p) "d" then
        match Event.before p with
        | Some post =>
            match Post.id post with
            | Some i =>
                (MockElasticsearch.delete
                   (MockElasticsearch.mkDeleteParams "posts" (pretty i)) 0 es).2
            | None => es
            end
        | None => es
        end
      else es
  end.

(** What an upsert of [post] leaves in the Redis double, given the clock
    readings at [setex], at the [Date.now()] used as score, and at
    [expire]. Without an identifier only the [setex] goes through. *)
Definition upsert_effect (post : Post.t) (t_setex t_score t_expire : Z)
    (r : MockRedis.t) : MockRedis.t :=
  let key := CacheUpdater.cacheKey (Post.id post) in
  let akey := CacheUpdater.authorKey (Post.author post) in
  match Post.id post with
  | Some i =>
      MockRedis.mk
        (<[key := CacheUpdater.cacheValue post]> (MockRedis.data r))
        (<[akey := t_expire + 300 * 1000]>
           (<[key := t_setex + 300 * 1000]> (MockRedis.expiry r)))
        (<[akey := <[pretty i := t_score]>
                     (default ∅ (MockRedis.sortedSets r !! akey))]>
           (MockRedis.sortedSets r))
  | None =>
      MockRedis.mk
        (<[key := CacheUpdater.cacheValue post]> (MockRedis.data r))
        (<[key := t_setex + 300 * 1000]> (MockRedis.expiry r))
        (MockRedis.sortedSets r)
  end.

(** What the removal of [post] leaves in the Redis double. *)
Definition delete_effect (post : Post.t) (r : MockRedis.t) : MockRedis.t :=
  let key := CacheUpdater.cacheKey (Post.id post) in
  let akey := CacheUpdater.authorKey (Post.author post) in
  MockRedis.mk
    (base.delete key (MockRedis.data r))
    (base.delete key (MockRedis.expiry r))
    (match Post.id post with
     | Some i =>
         alter (base.delete (pretty i)) akey (base.delete key (MockRedis.sortedSets r))
     | None => base.delete key (MockRedis.sortedSets r)
     end).

(** What [CacheUpdater.apply] leaves in the Redis double. *)
Definition cache_effect (event : Event.DebeziumChangeEvent)
    (t_setex t_score t_expire : Z) (r : MockRedis.t) : MockRedis.t :=
  match Event.payload event with
  | None => r
  | Some p =>
      if is_upsert_code (Event.op p) then
        match Event.after p with
        | Some post => upsert_effect post t_setex t_score t_expire r
        | None => r
        end
      else if String.eqb (Event.op p) "d" then
        match Event.before p with
        | Some post => delete_effect post r
        | None => r
        end
      else r
  end.

(** The cache without its timestamps: the values, the keys that carry a
    ttl, and the members of every ordered set. *)
Definition cache_contents (r : MockRedis.t)
  : gmap string string * gset string * gmap string (gset string) :=
  (MockRedis.data r, dom (MockRedis.expiry r), dom <$> MockRedis.sortedSets r).

Definition logged {D C} (w : Js.World D C) : Js.World D C :=
  Js.mkWorld (Js.store w) (Js.clock w) (Js.ticks w) (Js.calls w)
    (Js.console w ++ [Js.Log]).

(** ** Sequences of records for one author *)

(** A create record for row [i] of [author], and a delete record for it. *)
Definition creates (author : option string) (p : Event.Payload) (i : Z) : Prop :=
  Event.op p = "c"
  /\ exists post, Event.after p = Some post
                  /\ Post.id post = Some i /\ Post.author post = author.

Definition deletes (author : option string) (p : Event.Payload) (i : Z) : Prop :=
  Event.op p = "d"
  /\ exists post, Event.before p = Some post
                  /\ Post.id post = Some i /\ Post.author post = author.

(** The consumer fed with a sequence of records, in order. *)
Definition apply_all (records : list Event.Payload)
    (w : Js.World MockRedis.t RedisCall) : Js.World MockRedis.t RedisCall :=
  foldl (fun w p => (CacheUpdater.apply (Event.mkEvent (Some p)) w).2) w records.

(** The members of the ordered set of [author]. *)
Definition author_posts (author : option string)
    (w : Js.World MockRedis.t RedisCall) : gset string :=
  dom (default ∅ (MockRedis.sortedSets (Js.store w) !! CacheUpdater.authorKey author)).

(** ** Fixtures *)

Definition unknown_op_event : Event.DebeziumChangeEvent :=
  createMockDebeziumEvent "x" None (Some test_post).

Definition connection_refused : Js.Error := Js.mkError "Connection refused" None.

Definition network_error : Js.Error := Js.mkError "Network error" None.

(** [mockRedis.setex.mockRejectedValueOnce(new Error("Connection refused"))] *)
Definition redis_down : Vi.Mock MockRedis.t :=
  Vi.mockRejectedValueOnce "setex" connection_refused (Vi.plain MockRedis.empty).

(** [mockEs.index.mockRejectedValueOnce(new Error("Network error"))] *)
Definition es_down : Vi.Mock MockElasticsearch.t :=
  Vi.mockRejectedValueOnce "index" network_error (Vi.plain MockElasticsearch.empty).

Definition alice_post (i : Z) : Post.t :=
  Post.mk (Some i) (Some "Post") (Some "Test Content") (Some "Alice") None None.

Definition alice_creates : list Event.Payload :=
  (fun i => Event.mkPayload None (Some (alice_post i)) test_source "c" 0) <$> [1; 2; 3].

Definition alice_removal : Event.Payload :=
  Event.mkPayload (Some (alice_post 2)) None test_source "d" 0.

(** ** Which client calls belong to which operation code *)

Definition cache_call_fits (operation : string) (c : RedisCall) : bool :=
  match c with
  | Setex _ _ _ | Zadd _ _ _ | Expire _ _ => is_upsert_code operation
  | Del _ | Zrem _ _ => String.eqb operation "d"
  end.

Definition search_call_fits (operation : string) (c : EsCall) : bool :=
  match c with
  | EsIndex _ => is_upsert_code operation
  | EsDelete _ => String.eqb operation "d"
  end.

(** ** The read path of the API server ([GET /posts/:id])

    The route handler of the API server that reads the cache the cache
    updater fills. The request is the [id] path parameter; what the
    handler sends with [res.json] or [res.status(..).json] is its
    result. PostgreSQL is a client like the other two: its answer to
    [SELECT * FROM posts WHERE id = $1] is [result.rows]. *)

Module ApiServer.

Inductive Call :=
| RedisGet (key : string)
| RedisSetex (key : string) (seconds : Z) (value : string)
| PgSelectPost (id : string).

Class Backend (D : Type) := {
  redis_get : string -> Z -> D -> Js.Outcome (option string) * D;
  redis_setex : string -> Z -> string -> Z -> D -> Js.Outcome string * D;
  pg_select_post : string -> Z -> D -> Js.Outcome (list Post.t) * D
}.

(** The body of a response; [J] is what [JSON.parse] returns. *)
Inductive Body (J : Type) :=
| FromCache (post : J)
| FromDatabase (post : Post.t)
| Failure (error : string) (details : option string).
Arguments FromCache {J} post.
Arguments FromDatabase {J} post.
Arguments Failure {J} error details.

Record Response (J : Type) := mkResponse {
  status : Z;
  body : Body J
}.
Arguments mkResponse {J} status body.
Arguments status {J} _.
Arguments body {J} _.

(** [if (cached)]: [null] and the empty string are both a miss. *)
Definition is_hit (cached : option string) : bool :=
  match cached with
  | Some s => negb (String.eqb s "")
  | None => false
  end.

Section Routes.
Context {D J : Type} `{Backend D}.
Variable JSON_parse : string -> Js.Outcome J.
Variable JSON_stringify : Post.t -> string.

Definition getPost (id : string) : Js.Async D Call (Response J) :=
  Js.try_catch
    (Js.console_write Js.Log ;;;
     let key := "post:" +:+ id in
     cached <- Js.invoke (RedisGet key) (redis_get key) ;;
     if is_hit cached then
       Js.console_write Js.Log ;;;
       post <- Js.settle (JSON_parse (default "" cached)) ;;
       Js.ret (mkResponse 200 (FromCache post))
     else
       Js.console_write Js.Log ;;;
       rows <- Js.invoke (PgSelectPost id) (pg_select_post id) ;;
       match rows with
       | [] => Js.ret (mkResponse 404 (Failure "Post not found" None))
       | post :: _ =>
           Js.console_write Js.Log ;;;
           Js.invoke (RedisSetex key 60 (JSON_stringify post))
                     (redis_setex key 60 (JSON_stringify post)) ;;;
           Js.console_write Js.Log ;;;
           Js.ret (mkResponse 200 (FromDatabase post))
       end)
    (fun error =>
       Js.console_write Js.Err ;;;
       Js.ret (mkResponse 500
                 (Failure "Failed to fetch post" (Some (Js.message error))))).
End Routes.

(** The Redis double behind the API, with the posts table as a
    function from the id parameter to the rows selected. *)
Definition MockBackend (table : string -> list Post.t) : Backend MockRedis.t := {|
  redis_get := MockRedis.get;
  redis_setex := MockRedis.setex;
  pg_select_post := fun id now r => (Js.Resolved (table id), r)
|}.

(** The same behind [vi.fn], so that a call can be made to reject. *)
Definition ViBackend {D} (backend : Backend D) : Backend (Vi.Mock D) := {|
  redis_get := fun key => Vi.fn "get" (@redis_get D backend key);
  redis_setex := fun key seconds value =>
    Vi.fn "setex" (@redis_setex D backend key seconds value);
  pg_select_post := fun id => Vi.fn "query" (@pg_select_post D backend id)
|}.

End ApiServer.

(** ** Waiting for propagation ([waitForPropagation] of the integration
    tests)

    The polling helper that waits until both projections show what is
    expected of a post. [es.get] answers with a result whose [_source]
    may be missing, or rejects; [redis.get] answers with the cached
    string or [null]; [JSON_parse] stands for [JSON.parse] followed by
    the reads of [title] and [content]. The wait budget is an integer
    number of milliseconds. *)

Module WaitForPropagation.

Record UpdateData := mkUpdateData {
  title : option string;
  content : option string
}.

Record Options := mkOptions {
  expectedInElasticsearch : bool;
  expectedInRedis : bool;
  maxWaitTimeMs : Z;
  updateData : option UpdateData
}.

(** The four variables the loop updates. *)
Record Progress := mkProgress {
  esMatched : bool;
  redisMatched : bool;
  esTime : option Z;
  redisTime : option Z
}.

Record Result := mkResult {
  progress : Progress;
  elapsedMs : Z
}.

Inductive Call :=
| EsGet (index id : string)
| RedisGet (key : string).

Class Stores (D : Type) := {
  es_get : string -> string -> Z -> D -> Js.Outcome (option Post.t) * D;
  redis_get : string -> Z -> D -> Js.Outcome (option string) * D
}.

(** [await new Promise((resolve) => setTimeout(resolve, ms))]: time
    passes, nothing else happens. *)
Definition sleep {D C} (ms : Z) : Js.Async D C unit :=
  fun w => (Js.Resolved tt,
            Js.mkWorld (Js.store w) (Js.clock w) (S (Js.ticks w))
              (Js.calls w) (Js.console w)).

(** The world after a [sleep]. *)
Definition slept {D C} (w : Js.World D C) : Js.World D C :=
  Js.mkWorld (Js.store w) (Js.clock w) (S (Js.ticks w)) (Js.calls w) (Js.console w).

(** [title === updateData.title || content === updateData.content] *)
Definition shows_update (u : UpdateData) (seen : Post.t) : bool :=
  bool_decide (Post.title seen = title u)
  || bool_decide (Post.content seen = content u).

(** [Math.ceil(maxWaitTimeMs / 500)] *)
Definition maxIterations (options : Options) : Z :=
  (maxWaitTimeMs options + 499) / 500.

Section Wait.
Context {D : Type} `{Stores D}.
Variable JSON_parse : string -> Js.Outcome Post.t.
Variable postId : Z.
Variable options : Options.
Variable startTime : Z.

Definition es_matches (st : Progress) : Js.Async D Call Progress :=
  now <- Js.Date_now ;;
  Js.ret (mkProgress true (redisMatched st) (Some (now - startTime)) (redisTime st)).

Definition redis_matches (st : Progress) : Js.Async D Call Progress :=
  now <- Js.Date_now ;;
  Js.ret (mkProgress (esMatched st) true (esTime st) (Some (now - startTime))).

(** The block under [if (!esMatched)]. *)
Definition checkElasticsearch (st : Progress) : Js.Async D Call Progress :=
  if esMatched st then Js.ret st
  else
    Js.try_catch
      (esResult <- Js.invoke (EsGet "posts" (pretty postId))
                     (es_get "posts" (pretty postId)) ;;
       if expectedInElasticsearch options then
         match esResult with
         | Some source =>
             match updateData options with
             | Some u => if shows_update u source then es_matches st else Js.ret st
             | None => es_matches st
             end
         | None => Js.ret st
         end
       else Js.ret st)
      (fun error =>
         if bool_decide (Js.statusCode error = Some 404) then
           if negb (expectedInElasticsearch options) then es_matches st
           else Js.ret st
         else Js.ret st).

(** The block under [if (!redisMatched)]; nothing here is caught. *)
Definition checkRedis (st : Progress) : Js.Async D Call Progress :=
  if redisMatched st then Js.ret st
  else
    cachedValue <- Js.invoke (RedisGet ("post:" +:+ pretty postId))
                     (redis_get ("post:" +:+ pretty postId)) ;;
    if expectedInRedis options then
      if Js.truthy_str cachedValue then
        match updateData options with
        | Some u =>
            cachedPost <- Js.settle (JSON_parse (default "" cachedValue)) ;;
            if shows_update u cachedPost then redis_matches st else Js.ret st
        | None => redis_matches st
        end
      else Js.ret st
    else
      if negb (Js.truthy_str cachedValue) then redis_matches st else Js.ret st.

(** The [for] loop, with the iterations that are left as fuel. *)
Fixpoint iterate (remaining : nat) (st : Progress) : Js.Async D Call Progress :=
  match remaining with
  | O => Js.ret st
  | S remaining' =>
      sleep 500 ;;;
      st1 <- checkElasticsearch st ;;
      st2 <- checkRedis st1 ;;
      if esMatched st2 && redisMatched st2 then Js.ret st2
      else iterate remaining' st2
  end.
End Wait.

Definition waitForPropagation {D : Type} `{Stores D}
    (JSON_parse : string -> Js.Outcome Post.t) (postId : Z) (options : Options)
  : Js.Async D Call Result :=
  startTime <- Js.Date_now ;;
  st <- iterate JSON_parse postId options startTime
          (Z.to_nat (maxIterations options))
          (mkProgress false false None None) ;;
  now <- Js.Date_now ;;
  Js.ret (mkResult st (now - startTime)).

(** How many client calls a computation can add. *)
Definition adds_at_most {D A} (k : nat) (m : Js.Async D Call A) : Prop :=
  forall w, exists cs, Js.calls (m w).2 = Js.calls w ++ cs /\ (length cs <= k)%nat.

Definition is_redis_get (c : Call) : bool :=
  match c with RedisGet _ => true | EsGet _ _ => false end.

(** Both projections unreachable: Elasticsearch answers 503, Redis
    refuses the connection. *)
Definition unreachable : Stores unit := {|
  es_get := fun _ _ _ d => (Js.Rejected (Js.mkError "Service Unavailable" (Some 503)), d);
  redis_get := fun _ _ d => (Js.Rejected (Js.mkError "Connection refused" None), d)
|}.

(** The request of the delete scenario: absent from both projections,
    within ten seconds. *)
Definition expect_deleted : Options := mkOptions false false 10000 None.

(** The request of the insert scenario. *)
Definition expect_present : Options := mkOptions true true 10000 None.

(** A [JSON.parse] that accepts nothing. *)
Definition parse_nothing (cached : string) : Js.Outcome Post.t :=
  Js.Rejected (Js.mkError "Unexpected token" None).

(** The Redis double with a search index that holds nothing. *)
Definition redis_only : Stores MockRedis.t := {|
  es_get := fun _ _ _ d => (Js.Rejected MockElasticsearch.not_found, d);
  redis_get := MockRedis.get
|}.

End WaitForPropagation.

(** The posts table of the read-path examples: post 1 only. *)
Definition sample_table (id : string) : list Post.t :=
  if String.eqb id "1" then [test_post] else [].

(** A Redis that refuses the next [get]. *)
Definition redis_get_down : Vi.Mock MockRedis.t :=
  Vi.mockRejectedValueOnce "get" connection_refused (Vi.plain MockRedis.empty).

(** Post 1 once it belongs to Bob; a search client and a Redis that
    refuse the next [delete] and the next [zadd]. *)
Definition moved_post : Post.t :=
  Post.mk (Some 1) (Some "Post") (Some "Test Content") (Some "Bob") None None.

Definition es_delete_down : Vi.Mock MockElasticsearch.t :=
  Vi.mockRejectedValueOnce "delete" network_error (Vi.plain MockElasticsearch.empty).

Definition zadd_down : Vi.Mock MockRedis.t :=
  Vi.mockRejectedValueOnce "zadd" connection_refused (Vi.plain MockRedis.empty).

(** * Properties *)

(** ** Sanity checks of the embedding on the tests' own data *)

Example toString_42 : Js.template_num (Some 42) = "42".
Proof. reflexivity. Qed.

Example toString_negative : Js.template_num (Some (-7)) = "-7".
Proof. reflexivity. Qed.

Example cache_key_of_test_post : CacheUpdater.cacheKey (Post.id test_post) = "post:1".
Proof. reflexivity. Qed.

Example author_key_of_alice : CacheUpdater.authorKey (Some "Alice") = "author:Alice:posts".
Proof. reflexivity. Qed.

Example stringify_escapes :
  JSON.of_string (String JSON.quote "a") =
  String JSON.quote (String JSON.backslash (String JSON.quote
    (String "a" (String JSON.quote "")))).
Proof. reflexivity. Qed.

Example create_event_triggers_index :
  Js.calls (SearchIndexer.handleCreateOrUpdate
              (createMockDebeziumEvent "c" None (Some test_post))
              (fresh MockElasticsearch.empty ticking)).2
  = [EsIndex (MockElasticsearch.mkIndexParams "posts" "1" test_post)].
Proof. reflexivity. Qed.

Example delete_event_triggers_delete :
  Js.calls (SearchIndexer.handleDelete
              (createMockDebeziumEvent "d" (Some test_post) None)
              (fresh MockElasticsearch.empty ticking)).2
  = [EsDelete (MockElasticsearch.mkDeleteParams "posts" "1")].
Proof. reflexivity. Qed.

(** ** The monad *)

Section MonadFacts.
Context {D C : Type}.

Lemma try_catch_console (body : Js.Async D C unit) (l : Js.Level)
    (w : Js.World D C) :
  (Js.try_catch body (fun _ => Js.console_write l) w).1 = Js.Resolved tt.
Proof.
  unfold Js.try_catch. destruct (body w) as [[[]|e] w']; reflexivity.
Qed.

Lemma bind_resolved {A B} (m : Js.Async D C A) (k : A -> Js.Async D C B) w a w' :
  m w = (Js.Resolved a, w') -> Js.bind m k w = k a w'.
Proof. unfold Js.bind. intros ->. reflexivity. Qed.

Lemma bind_rejected {A B} (m : Js.Async D C A) (k : A -> Js.Async D C B) w e w' :
  m w = (Js.Rejected e, w') -> Js.bind m k w = (Js.Rejected e, w').
Proof. unfold Js.bind. intros ->. reflexivity. Qed.
End MonadFacts.

(** ** The Elasticsearch double *)

(** C10. Whatever the index held before, [MockElasticsearch.index]
    answers with [result = "updated"]: the document is put into the map
    before the membership test, so the ["created"] branch is never taken,
    not even for an identifier that was not there. *)
Theorem mock_index_result_is_always_updated
    (params : MockElasticsearch.IndexParams) (now : Z) (es : MockElasticsearch.t) :
  (MockElasticsearch.index params now es).1
  = Js.Resolved
      (MockElasticsearch.mkResponse
         (MockElasticsearch.index_name params)
         (MockElasticsearch.index_id params) "updated").
Proof.
  unfold MockElasticsearch.index. cbn.
  rewrite lookup_insert_eq.
  rewrite bool_decide_eq_true_2 by eauto.
  reflexivity.
Qed.

Example first_insert_reports_updated :
  MockElasticsearch.documents MockElasticsearch.empty !! "posts" = None /\
  (MockElasticsearch.index
     (MockElasticsearch.mkIndexParams "posts" "1" test_post) 0
     MockElasticsearch.empty).1
  = Js.Resolved (MockElasticsearch.mkResponse "posts" "1" "updated").
Proof. split; reflexivity. Qed.

(** ** Dispatch on the operation code *)

(** C6. A snapshot record (op "r") and a create record (op "c") with the
    same payload are applied identically by both consumers: the switch
    sends both to [handleCreateOrUpdate], so the outcome and the whole
    world left behind coincide, whatever the downstream client is. *)
Theorem snapshot_is_applied_as_create
    {D1 : Type} `{EsClient D1} {D2 : Type} `{RedisClient D2}
    (before after : option Post.t) (source : Event.Source) (ts_ms : Z)
    (w1 : Js.World D1 EsCall) (w2 : Js.World D2 RedisCall) :
  SearchIndexer.apply
    (Event.mkEvent (Some (Event.mkPayload before after source "r" ts_ms))) w1
  = SearchIndexer.apply
      (Event.mkEvent (Some (Event.mkPayload before after source "c" ts_ms))) w1
  /\
  CacheUpdater.apply
    (Event.mkEvent (Some (Event.mkPayload before after source "r" ts_ms))) w2
  = CacheUpdater.apply
      (Event.mkEvent (Some (Event.mkPayload before after source "c" ts_ms))) w2.
Proof. split; reflexivity. Qed.

Lemma upsert_code_cases (op : string) :
  op ∈ ["c"; "u"; "r"] -> op = "c" \/ op = "u" \/ op = "r".
Proof. rewrite !elem_of_cons, elem_of_nil. tauto. Qed.

Lemma unknown_code_eqb (op : string) :
  op ∉ ["c"; "r"; "u"; "d"] ->
  String.eqb op "c" = false /\ String.eqb op "r" = false /\
  String.eqb op "u" = false /\ String.eqb op "d" = false.
Proof.
  rewrite !not_elem_of_cons. intros (Hc & Hr & Hu & Hd & _).
  repeat split; apply String.eqb_neq; assumption.
Qed.

(** C3. A create, update or snapshot record whose [after] is null is
    skipped by both projections: [apply] returns normally, makes no call
    on the downstream client and leaves the store as it was. The same
    holds for the handler copies of the unit tests. *)
Theorem null_after_is_skipped
    {D1 : Type} `{EsClient D1} {D2 : Type} `{RedisClient D2}
    (p : Event.Payload)
    (w1 : Js.World D1 EsCall) (w2 : Js.World D2 RedisCall) :
  Event.after p = None ->
  Event.op p ∈ ["c"; "u"; "r"] ->
  let event := Event.mkEvent (Some p) in
  let s := SearchIndexer.apply event w1 in
  let c := CacheUpdater.apply event w2 in
  let s' := SearchIndexerTest.handleCreateOrUpdate event w1 in
  let c' := CacheUpdaterTest.handleCreateOrUpdate event w2 in
  (s.1 = Js.Resolved tt /\ Js.calls s.2 = Js.calls w1 /\ Js.store s.2 = Js.store w1)
  /\ (c.1 = Js.Resolved tt /\ Js.calls c.2 = Js.calls w2 /\ Js.store c.2 = Js.store w2)
  /\ (s'.1 = Js.Resolved tt /\ Js.calls s'.2 = Js.calls w1 /\ Js.store s'.2 = Js.store w1)
  /\ (c'.1 = Js.Resolved tt /\ Js.calls c'.2 = Js.calls w2 /\ Js.store c'.2 = Js.store w2).
Proof.
  destruct p as [b a src o t]. cbn. intros -> Hop.
  apply upsert_code_cases in Hop.
  destruct Hop as [-> | [-> | ->]]; cbn; repeat split; reflexivity.
Qed.

Lemma null_after_is_skipped_witness :
  let p := Event.mkPayload None None test_source "c" 0 in
  let s := SearchIndexer.apply (Event.mkEvent (Some p))
             (fresh MockElasticsearch.empty ticking) in
  s.1 = Js.Resolved tt /\ Js.calls s.2 = [].
Proof.
  pose proof (null_after_is_skipped
                (Event.mkPayload None None test_source "c" 0)
                (fresh MockElasticsearch.empty ticking)
                (fresh MockRedis.empty ticking) eq_refl
                ltac:(cbn; apply list_elem_of_here)) as (Hs & _).
  cbn in Hs. destruct Hs as (H1 & H2 & _). split; assumption.
Defined.

(** ** Decoding inside [eachMessage] *)

(** C9, as stated, fails: a record with the unknown operation code "x"
    is not rejected with an error. Both consumers return normally on it
    (a warning is all that happens), and a message that does not parse at
    all is swallowed inside [eachMessage] as well. *)
Lemma unknown_operation_is_not_an_error :
  (SearchIndexer.apply unknown_op_event (fresh MockElasticsearch.empty ticking)).1
    = Js.Resolved tt
  /\ (CacheUpdater.apply unknown_op_event (fresh MockRedis.empty ticking)).1
    = Js.Resolved tt
  /\ ~ settled_error
        (SearchIndexer.eachMessage (parse_table [("x-message", unknown_op_event)])
           (Some "x-message") (fresh MockElasticsearch.empty ticking))
  /\ ~ settled_error
        (CacheUpdater.eachMessage (parse_table [])
           (Some "not json") (fresh MockRedis.empty ticking)).
Proof.
  repeat split; try reflexivity; intros [e He]; cbn in He; discriminate.
Qed.

(** C9, amended. The consumers decode with [JSON.parse] and use the
    result as it is; nothing is rejected towards the caller. A record
    whose operation code is none of "c", "r", "u", "d" only produces a
    warning: [eachMessage] returns normally, with no call on the
    downstream client and the store untouched. And whatever the message
    and whatever [JSON.parse] or the handlers throw, [eachMessage] itself
    catches it and returns normally: dropping and continuing is decided
    inside [eachMessage], not by its caller. *)
Theorem eachMessage_drops_and_continues
    {D1 : Type} `{EsClient D1} {D2 : Type} `{RedisClient D2}
    (JSON_parse : string -> Js.Outcome Event.DebeziumChangeEvent)
    (buffer : string) (p : Event.Payload)
    (w1 : Js.World D1 EsCall) (w2 : Js.World D2 RedisCall) :
  JSON_parse buffer = Js.Resolved (Event.mkEvent (Some p)) ->
  Event.op p ∉ ["c"; "r"; "u"; "d"] ->
  let s := SearchIndexer.eachMessage JSON_parse (Some buffer) w1 in
  let c := CacheUpdater.eachMessage JSON_parse (Some buffer) w2 in
  (s.1 = Js.Resolved tt /\ Js.calls s.2 = Js.calls w1 /\ Js.store s.2 = Js.store w1
   /\ Js.console s.2 = Js.console w1 ++ [Js.Log; Js.Warn])
  /\ (c.1 = Js.Resolved tt /\ Js.calls c.2 = Js.calls w2 /\ Js.store c.2 = Js.store w2
      /\ Js.console c.2 = Js.console w2 ++ [Js.Log; Js.Warn])
  /\ (forall value w, (SearchIndexer.eachMessage JSON_parse value w).1 = Js.Resolved tt)
  /\ (forall value w, (CacheUpdater.eachMessage JSON_parse value w).1 = Js.Resolved tt).
Proof.
  intros Hparse Hop.
  destruct (unknown_code_eqb _ Hop) as (Hc & Hr & Hu & Hd).
  destruct p as [b a src o t]. cbn in Hc, Hr, Hu, Hd.
  split; [|split; [|split]].
  - unfold SearchIndexer.eachMessage, SearchIndexer.apply, Js.try_catch,
      Js.bind, Js.settle.
    cbn. rewrite Hparse. cbn. rewrite Hc, Hr, Hu, Hd. cbn.
    rewrite <- app_assoc. repeat split; reflexivity.
  - unfold CacheUpdater.eachMessage, CacheUpdater.apply, Js.try_catch,
      Js.bind, Js.settle.
    cbn. rewrite Hparse. cbn. rewrite Hc, Hr, Hu, Hd. cbn.
    rewrite <- app_assoc. repeat split; reflexivity.
  - intros [buf|] w; [apply try_catch_console | reflexivity].
  - intros [buf|] w; [apply try_catch_console | reflexivity].
Qed.

Lemma eachMessage_drops_and_continues_witness :
  let parse := parse_table [("x-message", unknown_op_event)] in
  parse "x-message" = Js.Resolved unknown_op_event
  /\ ("x" ∉ ["c"; "r"; "u"; "d"])
  /\ (SearchIndexer.eachMessage parse (Some "x-message")
        (fresh MockElasticsearch.empty ticking)).1 = Js.Resolved tt.
Proof.
  assert (Hx : "x" ∉ ["c"; "r"; "u"; "d"]).
  { rewrite !not_elem_of_cons. repeat split; try discriminate.
    apply not_elem_of_nil. }
  split; [reflexivity | split; [exact Hx |]].
  exact (proj1 (proj1
    (eachMessage_drops_and_continues
       (parse_table [("x-message", unknown_op_event)]) "x-message"
       (Event.mkPayload None (Some test_post) test_source "x" 0)
       (fresh MockElasticsearch.empty ticking) (fresh MockRedis.empty ticking)
       eq_refl Hx))).
Defined.

(** ** Failures of the downstream store *)

Section ProductionHandlersSwallow.
Context {D1 : Type} `{EsClient D1} {D2 : Type} `{RedisClient D2}.

(** The [try]/[catch] blocks of the deployed handlers end in a
    [console.error]: once the payload is there, they cannot reject. *)
Lemma search_upsert_never_rejects (p : Event.Payload) (w : Js.World D1 EsCall) :
  (SearchIndexer.handleCreateOrUpdate (Event.mkEvent (Some p)) w).1 = Js.Resolved tt.
Proof.
  unfold SearchIndexer.handleCreateOrUpdate. cbn.
  destruct (Event.after p); [|reflexivity].
  cbn. apply try_catch_console.
Qed.

Lemma cache_upsert_never_rejects (p : Event.Payload) (w : Js.World D2 RedisCall) :
  (CacheUpdater.handleCreateOrUpdate (Event.mkEvent (Some p)) w).1 = Js.Resolved tt.
Proof.
  unfold CacheUpdater.handleCreateOrUpdate. cbn.
  destruct (Event.after p); [|reflexivity].
  cbn. apply try_catch_console.
Qed.

Lemma cache_delete_never_rejects (p : Event.Payload) (w : Js.World D2 RedisCall) :
  (CacheUpdater.handleDelete (Event.mkEvent (Some p)) w).1 = Js.Resolved tt.
Proof.
  unfold CacheUpdater.handleDelete. cbn.
  destruct (Event.before p); [|reflexivity].
  cbn. apply try_catch_console.
Qed.

Lemma search_delete_never_rejects (p : Event.Payload) (w : Js.World D1 EsCall) :
  (SearchIndexer.handleDelete (Event.mkEvent (Some p)) w).1 = Js.Resolved tt.
Proof.
  unfold SearchIndexer.handleDelete. cbn.
  destruct (Event.before p); [|reflexivity].
  cbn. unfold Js.try_catch.
  match goal with |- context [match ?b with _ => _ end] => destruct b as [[[]|e] w'] end;
    [reflexivity |].
  destruct (bool_decide _); reflexivity.
Qed.
End ProductionHandlersSwallow.

(** C2 (the deployed handlers do not do this). With the downstream write
    rejecting once, as in the unit tests "should handle Redis connection
    errors" and "should handle Elasticsearch index errors gracefully",
    the deployed [handleCreateOrUpdate] of both consumers catches the
    error, logs it and returns normally, with nothing stored; the copies
    in the unit tests reject with the store's error, as the tests
    expect. *)
Theorem deployed_upsert_swallows_downstream_error :
  let event := createMockDebeziumEvent "c" None (Some test_post) in
  let cache := CacheUpdater.handleCreateOrUpdate event (fresh redis_down ticking) in
  let search := SearchIndexer.handleCreateOrUpdate event (fresh es_down ticking) in
  (cache.1 = Js.Resolved tt
   /\ Js.calls cache.2
      = [Setex "post:1" 300 (CacheUpdater.cacheValue test_post)]
   /\ MockRedis.data (Vi.target (Js.store cache.2)) !! "post:1" = None
   /\ Js.console cache.2 = [Js.Log; Js.Err])
  /\ (search.1 = Js.Resolved tt
      /\ Js.calls search.2
         = [EsIndex (MockElasticsearch.mkIndexParams "posts" "1" test_post)]
      /\ MockElasticsearch.getDocumentCount "posts" (Vi.target (Js.store search.2)) = 0%nat
      /\ Js.console search.2 = [Js.Log; Js.Err])
  /\ (CacheUpdaterTest.handleCreateOrUpdate event (fresh redis_down ticking)).1
     = Js.Rejected connection_refused
  /\ (SearchIndexerTest.handleCreateOrUpdate event (fresh es_down ticking)).1
     = Js.Rejected network_error.
Proof. vm_compute. repeat split; reflexivity. Qed.

(** ** Required fields *)

(** The copy of the search handler in the unit tests checks the four
    required fields and skips a row lacking any of them. *)
Lemma test_copy_skips_incomplete_rows
    {D : Type} `{EsClient D} (p : Event.Payload) (post : Post.t)
    (w : Js.World D EsCall) :
  Event.after p = Some post ->
  Js.truthy_num (Post.id post) && Js.truthy_str (Post.title post)
    && Js.truthy_str (Post.content post) && Js.truthy_str (Post.author post) = false ->
  let r := SearchIndexerTest.handleCreateOrUpdate (Event.mkEvent (Some p)) w in
  r.1 = Js.Resolved tt /\ Js.calls r.2 = Js.calls w /\ Js.store r.2 = Js.store w.
Proof.
  intros Hafter Hmissing. unfold SearchIndexerTest.handleCreateOrUpdate. cbn.
  rewrite Hafter.
  assert (negb (Js.truthy_num (Post.id post))
          || negb (Js.truthy_str (Post.title post))
          || negb (Js.truthy_str (Post.content post))
          || negb (Js.truthy_str (Post.author post)) = true) as ->.
  { destruct (Js.truthy_num _), (Js.truthy_str (Post.title post)),
      (Js.truthy_str (Post.content post)), (Js.truthy_str (Post.author post));
      cbn in *; congruence. }
  cbn. repeat split; reflexivity.
Qed.

(** C5 (the deployed handler does not do this). On the row of the unit
    test "should skip event with missing required fields", which has an
    identifier and nothing else, the deployed search handler validates
    nothing: it calls [index] and the incomplete document ends up in the
    store. The copy in the unit tests skips the row, as the test
    expects. *)
Theorem deployed_search_upsert_indexes_incomplete_row :
  let event := createMockDebeziumEvent "c" None (Some id_only_post) in
  let deployed :=
    SearchIndexer.handleCreateOrUpdate event (fresh MockElasticsearch.empty ticking) in
  let tested :=
    SearchIndexerTest.handleCreateOrUpdate event (fresh MockElasticsearch.empty ticking) in
  Js.calls deployed.2
    = [EsIndex (MockElasticsearch.mkIndexParams "posts" "1" id_only_post)]
  /\ MockElasticsearch.getAllDocuments "posts" (Js.store deployed.2) !! "1"
     = Some id_only_post
  /\ Post.title id_only_post = None
  /\ tested.1 = Js.Resolved tt
  /\ Js.calls tested.2 = []
  /\ MockElasticsearch.getDocumentCount "posts" (Js.store tested.2) = 0%nat.
Proof. vm_compute. repeat split; reflexivity. Qed.

(** ** What the operations of the two doubles leave behind *)

Section MockFacts.
Implicit Types (r : MockRedis.t) (es : MockElasticsearch.t).

Lemma index_closed (params : MockElasticsearch.IndexParams) now es :
  MockElasticsearch.index params now es
  = (Js.Resolved
       (MockElasticsearch.mkResponse
          (MockElasticsearch.index_name params)
          (MockElasticsearch.index_id params) "updated"),
     MockElasticsearch.mk
       (<[MockElasticsearch.index_name params :=
            <[MockElasticsearch.index_id params := MockElasticsearch.document params]>
              (MockElasticsearch.getAllDocuments
                 (MockElasticsearch.index_name params) es)]>
          (MockElasticsearch.documents es))).
Proof.
  unfold MockElasticsearch.index, MockElasticsearch.getAllDocuments. cbn.
  rewrite lookup_insert_eq, bool_decide_eq_true_2 by eauto.
  destruct (MockElasticsearch.documents es !! _) eqn:E; cbn.
  - rewrite E. reflexivity.
  - rewrite lookup_insert_eq, insert_insert_eq. reflexivity.
Qed.

Lemma delete_absent (params : MockElasticsearch.DeleteParams) now es :
  MockElasticsearch.getAllDocuments (MockElasticsearch.delete_index params) es
    !! MockElasticsearch.delete_id params = None ->
  MockElasticsearch.delete params now es
  = (Js.Rejected MockElasticsearch.not_found, es).
Proof.
  unfold MockElasticsearch.delete, MockElasticsearch.getAllDocuments.
  destruct (MockElasticsearch.documents es !! _) as [docs|]; cbn; [|reflexivity].
  intros ->. rewrite bool_decide_eq_false_2; [reflexivity | by intros [? ?]].
Qed.

Lemma delete_present (params : MockElasticsearch.DeleteParams) now es docs doc :
  MockElasticsearch.documents es !! MockElasticsearch.delete_index params = Some docs ->
  docs !! MockElasticsearch.delete_id params = Some doc ->
  MockElasticsearch.delete params now es
  = (Js.Resolved
       (MockElasticsearch.mkResponse (MockElasticsearch.delete_index params)
          (MockElasticsearch.delete_id params) "deleted"),
     MockElasticsearch.mk
       (<[MockElasticsearch.delete_index params :=
            base.delete (MockElasticsearch.delete_id params) docs]>
          (MockElasticsearch.documents es))).
Proof.
  unfold MockElasticsearch.delete. intros -> Hdoc.
  rewrite bool_decide_eq_true_2 by eauto. reflexivity.
Qed.

Lemma zadd_closed (key : string) (score : Z) (member : string) now r :
  MockRedis.zadd key score member now r
  = (Js.Resolved
       (if negb (bool_decide
                   (is_Some (default ∅ (MockRedis.sortedSets r !! key) !! member)))
        then 1 else 0),
     MockRedis.mk (MockRedis.data r) (MockRedis.expiry r)
       (<[key := <[member := score]> (default ∅ (MockRedis.sortedSets r !! key))]>
          (MockRedis.sortedSets r))).
Proof.
  unfold MockRedis.zadd.
  destruct (MockRedis.sortedSets r !! key) as [set|] eqn:E; cbn.
  - rewrite E. reflexivity.
  - rewrite lookup_insert_eq, insert_insert_eq. reflexivity.
Qed.

Lemma expire_on_sorted_set (key : string) (seconds now : Z) r set :
  MockRedis.sortedSets r !! key = Some set ->
  MockRedis.expire key seconds now r
  = (Js.Resolved 1,
     MockRedis.mk (MockRedis.data r)
       (<[key := now + seconds * 1000]> (MockRedis.expiry r))
       (MockRedis.sortedSets r)).
Proof.
  unfold MockRedis.expire. intros ->.
  rewrite (bool_decide_eq_true_2 (is_Some (Some set))) by eauto.
  rewrite andb_false_r. reflexivity.
Qed.

Lemma del_closed (key : string) now r :
  MockRedis.del [key] now r
  = (Js.Resolved (if bool_decide (is_Some (MockRedis.data r !! key)) then 0 + 1 else 0),
     MockRedis.mk (base.delete key (MockRedis.data r))
       (base.delete key (MockRedis.expiry r))
       (base.delete key (MockRedis.sortedSets r))).
Proof. reflexivity. Qed.

Lemma zrem_missing_set (key member : string) now r :
  MockRedis.sortedSets r !! key = None ->
  MockRedis.zrem key member now r = (Js.Resolved 0, r).
Proof. unfold MockRedis.zrem. intros ->. reflexivity. Qed.

Lemma zrem_closed (key member : string) now r set :
  MockRedis.sortedSets r !! key = Some set ->
  MockRedis.zrem key member now r
  = (Js.Resolved (if bool_decide (is_Some (set !! member)) then 1 else 0),
     MockRedis.mk (MockRedis.data r) (MockRedis.expiry r)
       (<[key := base.delete member set]> (MockRedis.sortedSets r))).
Proof. unfold MockRedis.zrem. intros ->. reflexivity. Qed.

(** A row key and an author key never collide. *)
Lemma cacheKey_ne_authorKey (id : option Z) (author : option string) :
  CacheUpdater.cacheKey id ≠ CacheUpdater.authorKey author.
Proof. unfold CacheUpdater.cacheKey, CacheUpdater.authorKey. cbn. discriminate. Qed.
End MockFacts.

Section MockRemoval.
Implicit Types (r : MockRedis.t).

(** [zrem] maps the set under [key], when there is one, to the set
    without [member]. *)
Lemma zrem_alter (key member : string) now r :
  MockRedis.zrem key member now r
  = (Js.Resolved
       (if bool_decide
             (is_Some (default ∅ (MockRedis.sortedSets r !! key) !! member))
        then 1 else 0),
     MockRedis.mk (MockRedis.data r) (MockRedis.expiry r)
       (alter (base.delete member) key (MockRedis.sortedSets r))).
Proof.
  destruct (MockRedis.sortedSets r !! key) as [set|] eqn:E.
  - rewrite (zrem_closed _ _ _ _ set E). cbn. do 3 f_equal.
    apply map_eq. intros k. rewrite lookup_insert, lookup_alter.
    case_decide; subst; [rewrite E|]; reflexivity.
  - rewrite (zrem_missing_set _ _ _ _ E). cbn.
    rewrite bool_decide_eq_false_2 by (rewrite lookup_empty; by intros [? ?]).
    destruct r as [d e s]. cbn in *. do 2 f_equal.
    apply map_eq. intros k. rewrite lookup_alter.
    case_decide; subst; [rewrite E|]; reflexivity.
Qed.

Lemma alter_delete_twice {V} (member key : string) (m : gmap string (gmap string V)) :
  alter (base.delete member) key (alter (base.delete member) key m)
  = alter (base.delete member) key m.
Proof.
  apply map_eq. intros k.
  destruct (decide (key = k)) as [->|Hne];
    [rewrite !lookup_alter_eq | by rewrite !lookup_alter_ne].
  destruct (m !! k); cbn; [|reflexivity].
  by rewrite delete_delete_eq.
Qed.

Lemma alter_delete_absent {V} (member key : string) (m : gmap string (gmap string V)) :
  default ∅ (m !! key) !! member = None ->
  alter (base.delete member) key m = m.
Proof.
  intros Habsent. apply map_eq. intros k. rewrite lookup_alter.
  case_decide; [subst|reflexivity].
  destruct (m !! k) as [set|] eqn:E; cbn in *; [|reflexivity].
  by rewrite delete_id.
Qed.
End MockRemoval.

(** ** Closed forms of the deployed handlers on the doubles *)

Ltac run_handler :=
  cbn -[MockRedis.zadd MockRedis.expire MockRedis.zrem MockRedis.del
        MockElasticsearch.index MockElasticsearch.delete
        CacheUpdater.cacheKey CacheUpdater.authorKey CacheUpdater.cacheValue
        Z.mul Z.add].

Section ClosedForms.

Lemma search_upsert_closed (p : Event.Payload) (post : Post.t) (i : Z)
    (w : Js.World MockElasticsearch.t EsCall) :
  Event.after p = Some post -> Post.id post = Some i ->
  SearchIndexer.handleCreateOrUpdate (Event.mkEvent (Some p)) w
  = (Js.Resolved tt,
     Js.mkWorld
       (MockElasticsearch.mk
          (<["posts" := <[pretty i := six_fields post]>
                          (MockElasticsearch.getAllDocuments "posts" (Js.store w))]>
             (MockElasticsearch.documents (Js.store w))))
       (Js.clock w) (S (Js.ticks w))
       (Js.calls w ++ [EsIndex (posts_params i post)])
       (Js.console w ++ [Js.Log; Js.Log])).
Proof.
  intros Hafter Hid.
  unfold SearchIndexer.handleCreateOrUpdate, Js.try_catch, Js.bind, Js.invoke, Js.console_write.
  run_handler. rewrite Hafter. run_handler. rewrite Hid. run_handler.
  rewrite index_closed. run_handler. rewrite <- List.app_assoc. reflexivity.
Qed.

Lemma search_upsert_without_id (p : Event.Payload) (post : Post.t)
    (w : Js.World MockElasticsearch.t EsCall) :
  Event.after p = Some post -> Post.id post = None ->
  SearchIndexer.handleCreateOrUpdate (Event.mkEvent (Some p)) w
  = (Js.Resolved tt,
     Js.mkWorld (Js.store w) (Js.clock w) (Js.ticks w) (Js.calls w)
       (Js.console w ++ [Js.Log; Js.Err])).
Proof.
  intros Hafter Hid.
  unfold SearchIndexer.handleCreateOrUpdate, Js.try_catch, Js.bind, Js.invoke, Js.console_write.
  run_handler. rewrite Hafter. run_handler. rewrite Hid. run_handler.
  rewrite <- List.app_assoc. reflexivity.
Qed.

Lemma cache_upsert_closed (p : Event.Payload) (post : Post.t) (i : Z)
    (w : Js.World MockRedis.t RedisCall) :
  Event.after p = Some post -> Post.id post = Some i ->
  let key := CacheUpdater.cacheKey (Some i) in
  let akey := CacheUpdater.authorKey (Post.author post) in
  let r := Js.store w in
  let score := Js.clock w (S (Js.ticks w)) in
  CacheUpdater.handleCreateOrUpdate (Event.mkEvent (Some p)) w
  = (Js.Resolved tt,
     Js.mkWorld
       (MockRedis.mk
          (<[key := CacheUpdater.cacheValue post]> (MockRedis.data r))
          (<[akey := Js.clock w (S (S (S (Js.ticks w)))) + 300 * 1000]>
             (<[key := Js.clock w (Js.ticks w) + 300 * 1000]> (MockRedis.expiry r)))
          (<[akey := <[pretty i := score]>
                       (default ∅ (MockRedis.sortedSets r !! akey))]>
             (MockRedis.sortedSets r)))
       (Js.clock w) (S (S (S (S (Js.ticks w)))))
       (Js.calls w ++ [Setex key 300 (CacheUpdater.cacheValue post);
                       Zadd akey score (pretty i);
                       Expire akey 300])
       (Js.console w ++ [Js.Log; Js.Log; Js.Log])).
Proof.
  intros Hafter Hid.
  unfold CacheUpdater.handleCreateOrUpdate, CacheUpdater.updateAuthorPostsList,
    Js.try_catch, Js.bind, Js.invoke, Js.console_write.
  run_handler. rewrite Hafter. run_handler. rewrite Hid. run_handler.
  rewrite zadd_closed. run_handler.
  erewrite expire_on_sorted_set by (run_handler; apply lookup_insert_eq).
  run_handler. rewrite <- !List.app_assoc. reflexivity.
Qed.

Lemma cache_upsert_without_id (p : Event.Payload) (post : Post.t)
    (w : Js.World MockRedis.t RedisCall) :
  Event.after p = Some post -> Post.id post = None ->
  let key := CacheUpdater.cacheKey None in
  let r := Js.store w in
  CacheUpdater.handleCreateOrUpdate (Event.mkEvent (Some p)) w
  = (Js.Resolved tt,
     Js.mkWorld
       (MockRedis.mk
          (<[key := CacheUpdater.cacheValue post]> (MockRedis.data r))
          (<[key := Js.clock w (Js.ticks w) + 300 * 1000]> (MockRedis.expiry r))
          (MockRedis.sortedSets r))
       (Js.clock w) (S (S (Js.ticks w)))
       (Js.calls w ++ [Setex key 300 (CacheUpdater.cacheValue post)])
       (Js.console w ++ [Js.Log; Js.Log; Js.Err])).
Proof.
  intros Hafter Hid.
  unfold CacheUpdater.handleCreateOrUpdate, CacheUpdater.updateAuthorPostsList,
    Js.try_catch, Js.bind, Js.invoke, Js.console_write.
  run_handler. rewrite Hafter. run_handler. rewrite Hid. run_handler.
  rewrite <- !List.app_assoc. reflexivity.
Qed.

Lemma cache_delete_closed (p : Event.Payload) (post : Post.t) (i : Z)
    (w : Js.World MockRedis.t RedisCall) :
  Event.before p = Some post -> Post.id post = Some i ->
  let key := CacheUpdater.cacheKey (Some i) in
  let akey := CacheUpdater.authorKey (Post.author post) in
  let r := Js.store w in
  CacheUpdater.handleDelete (Event.mkEvent (Some p)) w
  = (Js.Resolved tt,
     Js.mkWorld
       (MockRedis.mk
          (base.delete key (MockRedis.data r))
          (base.delete key (MockRedis.expiry r))
          (alter (base.delete (pretty i)) akey
             (base.delete key (MockRedis.sortedSets r))))
       (Js.clock w) (S (S (Js.ticks w)))
       (Js.calls w ++ [Del [key]; Zrem akey (pretty i)])
       (Js.console w ++ [Js.Log; Js.Log; Js.Log])).
Proof.
  intros Hbefore Hid.
  unfold CacheUpdater.handleDelete, CacheUpdater.removeFromAuthorPostsList,
    Js.try_catch, Js.bind, Js.invoke, Js.console_write.
  run_handler. rewrite Hbefore. run_handler. rewrite Hid. run_handler.
  rewrite del_closed. run_handler. rewrite zrem_alter. run_handler.
  rewrite <- !List.app_assoc. reflexivity.
Qed.

Lemma cache_delete_without_id (p : Event.Payload) (post : Post.t)
    (w : Js.World MockRedis.t RedisCall) :
  Event.before p = Some post -> Post.id post = None ->
  let key := CacheUpdater.cacheKey None in
  let r := Js.store w in
  CacheUpdater.handleDelete (Event.mkEvent (Some p)) w
  = (Js.Resolved tt,
     Js.mkWorld
       (MockRedis.mk
          (base.delete key (MockRedis.data r))
          (base.delete key (MockRedis.expiry r))
          (base.delete key (MockRedis.sortedSets r)))
       (Js.clock w) (S (Js.ticks w))
       (Js.calls w ++ [Del [key]])
       (Js.console w ++ [Js.Log; Js.Log; Js.Err])).
Proof.
  intros Hbefore Hid.
  unfold CacheUpdater.handleDelete, CacheUpdater.removeFromAuthorPostsList,
    Js.try_catch, Js.bind, Js.invoke, Js.console_write.
  run_handler. rewrite Hbefore. run_handler. rewrite Hid. run_handler.
  rewrite del_closed. run_handler.
  rewrite <- !List.app_assoc. reflexivity.
Qed.
End ClosedForms.

(** ** The net effect of [apply] on the doubles *)

Section SearchEffect.
Implicit Types (w : Js.World MockElasticsearch.t EsCall).

Lemma mock_index_ignores_clock params now now' es :
  MockElasticsearch.index params now es = MockElasticsearch.index params now' es.
Proof. reflexivity. Qed.

Lemma mock_delete_ignores_clock params now now' es :
  MockElasticsearch.delete params now es = MockElasticsearch.delete params now' es.
Proof. reflexivity. Qed.

Lemma search_handleDelete_store (p : Event.Payload) (post : Post.t) (i : Z) w :
  Event.before p = Some post -> Post.id post = Some i ->
  let r := SearchIndexer.handleDelete (Event.mkEvent (Some p)) w in
  r.1 = Js.Resolved tt
  /\ Js.store r.2
     = (MockElasticsearch.delete
          (MockElasticsearch.mkDeleteParams "posts" (pretty i)) 0 (Js.store w)).2
  /\ Js.calls r.2
     = Js.calls w ++ [EsDelete (MockElasticsearch.mkDeleteParams "posts" (pretty i))].
Proof.
  intros Hbefore Hid.
  unfold SearchIndexer.handleDelete, Js.try_catch, Js.bind, Js.invoke,
    Js.console_write.
  run_handler. rewrite Hbefore. run_handler. rewrite Hid. run_handler.
  rewrite (mock_delete_ignores_clock _ _ 0).
  destruct (MockElasticsearch.delete _ 0 (Js.store w)) as [[resp|e] es'];
    run_handler; [repeat split; reflexivity|].
  destruct (bool_decide _); run_handler; repeat split; reflexivity.
Qed.

Lemma search_handleDelete_without_id (p : Event.Payload) (post : Post.t) w :
  Event.before p = Some post -> Post.id post = None ->
  let r := SearchIndexer.handleDelete (Event.mkEvent (Some p)) w in
  r.1 = Js.Resolved tt /\ Js.store r.2 = Js.store w /\ Js.calls r.2 = Js.calls w.
Proof.
  intros Hbefore Hid.
  unfold SearchIndexer.handleDelete, Js.try_catch, Js.bind, Js.invoke,
    Js.console_write.
  run_handler. rewrite Hbefore. run_handler. rewrite Hid. run_handler.
  repeat split; reflexivity.
Qed.

Lemma search_apply_store (event : Event.DebeziumChangeEvent) w :
  Js.store (SearchIndexer.apply event w).2 = search_effect event (Js.store w).
Proof.
  destruct event as [[p|]]; [|reflexivity].
  unfold SearchIndexer.apply, search_effect, is_upsert_code, Js.bind. run_handler.
  destruct (String.eqb (Event.op p) "c" || String.eqb (Event.op p) "r"
            || String.eqb (Event.op p) "u").
  - destruct (Event.after p) as [post|] eqn:Hafter.
    + destruct (Post.id post) as [i|] eqn:Hid.
      * rewrite (search_upsert_closed p post i _ Hafter Hid). run_handler.
        rewrite index_closed. reflexivity.
      * rewrite (search_upsert_without_id p post _ Hafter Hid). reflexivity.
    + unfold SearchIndexer.handleCreateOrUpdate, Js.bind. run_handler.
      rewrite Hafter. reflexivity.
  - destruct (String.eqb (Event.op p) "d"); [|reflexivity].
    destruct (Event.before p) as [post|] eqn:Hbefore.
    + destruct (Post.id post) as [i|] eqn:Hid.
      * match goal with |- context [SearchIndexer.handleDelete _ ?w'] =>
          exact (proj1 (proj2 (search_handleDelete_store p post i w' Hbefore Hid)))
        end.
      * match goal with |- context [SearchIndexer.handleDelete _ ?w'] =>
          exact (proj1 (proj2 (search_handleDelete_without_id p post w' Hbefore Hid)))
        end.
    + unfold SearchIndexer.handleDelete, Js.bind. run_handler.
      rewrite Hbefore. reflexivity.
Qed.

Lemma mock_delete_twice params now now' (es : MockElasticsearch.t) :
  (MockElasticsearch.delete params now'
     (MockElasticsearch.delete params now es).2).2
  = (MockElasticsearch.delete params now es).2.
Proof.
  destruct (MockElasticsearch.documents es !! MockElasticsearch.delete_index params)
    as [docs|] eqn:E.
  - destruct (docs !! MockElasticsearch.delete_id params) as [doc|] eqn:Edoc.
    + rewrite (delete_present params now es docs doc E Edoc). cbn.
      rewrite delete_absent; [reflexivity|].
      unfold MockElasticsearch.getAllDocuments. cbn.
      rewrite lookup_insert_eq. cbn. apply lookup_delete_eq.
    + assert (MockElasticsearch.getAllDocuments
                (MockElasticsearch.delete_index params) es
                !! MockElasticsearch.delete_id params = None) as Habsent.
      { unfold MockElasticsearch.getAllDocuments. by rewrite E. }
      rewrite (delete_absent params now es Habsent). cbn.
      by rewrite delete_absent.
  - assert (MockElasticsearch.getAllDocuments
              (MockElasticsearch.delete_index params) es
              !! MockElasticsearch.delete_id params = None) as Habsent.
    { unfold MockElasticsearch.getAllDocuments. by rewrite E. }
    rewrite (delete_absent params now es Habsent). cbn.
    by rewrite delete_absent.
Qed.

Lemma mock_index_twice params now now' (es : MockElasticsearch.t) :
  (MockElasticsearch.index params now'
     (MockElasticsearch.index params now es).2).2
  = (MockElasticsearch.index params now es).2.
Proof.
  rewrite !index_closed. cbn. unfold MockElasticsearch.getAllDocuments. cbn.
  rewrite lookup_insert_eq. cbn. by rewrite !insert_insert_eq.
Qed.

Lemma search_effect_idempotent (event : Event.DebeziumChangeEvent) es :
  search_effect event (search_effect event es) = search_effect event es.
Proof.
  unfold search_effect.
  destruct (Event.payload event) as [p|]; [|reflexivity].
  destruct (is_upsert_code (Event.op p)).
  - destruct (Event.after p) as [post|]; [|reflexivity].
    destruct (Post.id post); [apply mock_index_twice | reflexivity].
  - destruct (String.eqb (Event.op p) "d"); [|reflexivity].
    destruct (Event.before p) as [post|]; [|reflexivity].
    destruct (Post.id post); [apply mock_delete_twice | reflexivity].
Qed.
End SearchEffect.

Section CacheEffect.
Implicit Types (w : Js.World MockRedis.t RedisCall) (r : MockRedis.t).

Lemma cache_apply_store (event : Event.DebeziumChangeEvent) w :
  let w' := (CacheUpdater.apply event w).2 in
  Js.store w'
  = cache_effect event (Js.clock w (Js.ticks w)) (Js.clock w (S (Js.ticks w)))
      (Js.clock w (S (S (S (Js.ticks w))))) (Js.store w)
  /\ Js.clock w' = Js.clock w.
Proof.
  destruct event as [[p|]]; [|split; reflexivity].
  unfold CacheUpdater.apply, cache_effect, is_upsert_code, Js.bind. run_handler.
  destruct (String.eqb (Event.op p) "c" || String.eqb (Event.op p) "r"
            || String.eqb (Event.op p) "u").
  - destruct (Event.after p) as [post|] eqn:Hafter.
    + unfold upsert_effect. destruct (Post.id post) as [i|] eqn:Hid.
      * rewrite (cache_upsert_closed p post i _ Hafter Hid). split; reflexivity.
      * rewrite (cache_upsert_without_id p post _ Hafter Hid). split; reflexivity.
    + unfold CacheUpdater.handleCreateOrUpdate, Js.bind. run_handler.
      rewrite Hafter. split; reflexivity.
  - destruct (String.eqb (Event.op p) "d"); [|split; reflexivity].
    destruct (Event.before p) as [post|] eqn:Hbefore.
    + unfold delete_effect. destruct (Post.id post) as [i|] eqn:Hid.
      * rewrite (cache_delete_closed p post i _ Hbefore Hid). split; reflexivity.
      * rewrite (cache_delete_without_id p post _ Hbefore Hid). split; reflexivity.
    + unfold CacheUpdater.handleDelete, Js.bind. run_handler.
      rewrite Hbefore. split; reflexivity.
Qed.

Lemma upsert_effect_overwrites (post : Post.t) (a b c a' b' c' : Z) r :
  upsert_effect post a' b' c' (upsert_effect post a b c r)
  = upsert_effect post a' b' c' r.
Proof.
  unfold upsert_effect.
  pose proof (cacheKey_ne_authorKey (Post.id post) (Post.author post)) as Hne.
  destruct (Post.id post) as [i|]; cbn; f_equal.
  - by rewrite insert_insert_eq.
  - apply map_eq. intros k. rewrite !lookup_insert.
    repeat case_decide; congruence.
  - rewrite lookup_insert_eq. cbn. by rewrite !insert_insert_eq.
  - by rewrite insert_insert_eq.
  - by rewrite insert_insert_eq.
Qed.

Lemma delete_effect_idempotent (post : Post.t) r :
  delete_effect post (delete_effect post r) = delete_effect post r.
Proof.
  unfold delete_effect.
  pose proof (cacheKey_ne_authorKey (Post.id post) (Post.author post)) as Hne.
  cbn. f_equal; try by rewrite delete_delete_eq.
  destruct (Post.id post) as [i|]; [|by rewrite delete_delete_eq].
  rewrite delete_alter_ne by done.
  by rewrite delete_delete_eq, alter_delete_twice.
Qed.

Lemma cache_effect_overwrites (event : Event.DebeziumChangeEvent)
    (a b c a' b' c' : Z) r :
  cache_effect event a' b' c' (cache_effect event a b c r)
  = cache_effect event a' b' c' r.
Proof.
  unfold cache_effect.
  destruct (Event.payload event) as [p|]; [|reflexivity].
  destruct (is_upsert_code (Event.op p)).
  - destruct (Event.after p); [apply upsert_effect_overwrites | reflexivity].
  - destruct (String.eqb (Event.op p) "d"); [|reflexivity].
    destruct (Event.before p); [apply delete_effect_idempotent | reflexivity].
Qed.

Lemma cache_contents_ignore_clock (event : Event.DebeziumChangeEvent)
    (a b c a' b' c' : Z) r :
  cache_contents (cache_effect event a b c r)
  = cache_contents (cache_effect event a' b' c' r).
Proof.
  unfold cache_effect.
  destruct (Event.payload event) as [p|]; [|reflexivity].
  destruct (is_upsert_code (Event.op p)); [|reflexivity].
  destruct (Event.after p) as [post|]; [|reflexivity].
  unfold upsert_effect, cache_contents.
  destruct (Post.id post) as [i|]; cbn.
  - rewrite !dom_insert_L, !fmap_insert, !dom_insert_L. reflexivity.
  - rewrite !dom_insert_L. reflexivity.
Qed.
End CacheEffect.

(** ** From [apply] to the handlers *)

Section Dispatch.
Context {D1 : Type} `{EsClient D1} {D2 : Type} `{RedisClient D2}.

Lemma search_apply_upsert (p : Event.Payload) (w : Js.World D1 EsCall) :
  Event.op p ∈ ["c"; "u"; "r"] ->
  SearchIndexer.apply (Event.mkEvent (Some p)) w
  = SearchIndexer.handleCreateOrUpdate (Event.mkEvent (Some p)) (logged w).
Proof.
  intros Hop. apply upsert_code_cases in Hop. destruct p as [b a src o t].
  cbn in Hop. destruct Hop as [-> | [-> | ->]]; reflexivity.
Qed.

Lemma search_apply_delete (p : Event.Payload) (w : Js.World D1 EsCall) :
  Event.op p = "d" ->
  SearchIndexer.apply (Event.mkEvent (Some p)) w
  = SearchIndexer.handleDelete (Event.mkEvent (Some p)) (logged w).
Proof. destruct p as [b a src o t]. cbn. intros ->. reflexivity. Qed.

Lemma cache_apply_upsert (p : Event.Payload) (w : Js.World D2 RedisCall) :
  Event.op p ∈ ["c"; "u"; "r"] ->
  CacheUpdater.apply (Event.mkEvent (Some p)) w
  = CacheUpdater.handleCreateOrUpdate (Event.mkEvent (Some p)) (logged w).
Proof.
  intros Hop. apply upsert_code_cases in Hop. destruct p as [b a src o t].
  cbn in Hop. destruct Hop as [-> | [-> | ->]]; reflexivity.
Qed.

Lemma cache_apply_delete (p : Event.Payload) (w : Js.World D2 RedisCall) :
  Event.op p = "d" ->
  CacheUpdater.apply (Event.mkEvent (Some p)) w
  = CacheUpdater.handleDelete (Event.mkEvent (Some p)) (logged w).
Proof. destruct p as [b a src o t]. cbn. intros ->. reflexivity. Qed.
End Dispatch.

(** ** Replay *)

(** C1, as stated, fails on the cache: with a clock that moves, applying
    the tests' create record twice does not leave the Redis double in the
    state one application leaves. The ttl deadline of the row and the
    score of the identifier in the author's ordered set are those of the
    second application. *)
Lemma replayed_upsert_moves_cache_timestamps :
  let event := createMockDebeziumEvent "c" None (Some test_post) in
  let once := (CacheUpdater.apply event (fresh MockRedis.empty ticking)).2 in
  let twice := (CacheUpdater.apply event once).2 in
  Js.store twice ≠ Js.store once
  /\ MockRedis.expiry (Js.store once) !! "post:1" = Some 1700000300000
  /\ MockRedis.expiry (Js.store twice) !! "post:1" = Some 1700000300004
  /\ default ∅ (MockRedis.sortedSets (Js.store once) !! "author:Test Author:posts")
       !! "1" = Some 1700000000001
  /\ default ∅ (MockRedis.sortedSets (Js.store twice) !! "author:Test Author:posts")
       !! "1" = Some 1700000000005.
Proof.
  cbv zeta. split.
  - intros Heq.
    apply (f_equal (fun r => MockRedis.expiry r !! "post:1")) in Heq.
    vm_compute in Heq. discriminate.
  - vm_compute. repeat split; reflexivity.
Qed.

(** C1, amended. Replaying a record is idempotent up to the timestamps
    the cache keeps. For every change record and every state of the
    doubles: the search index after two applications is the search index
    after one; the cache after two applications holds the same values,
    the same keys with a ttl and the same members in every ordered set as
    after one; and it is, timestamps included, exactly the cache a single
    application made at the time of the second would leave. *)
Theorem replay_is_idempotent_up_to_timestamps
    (event : Event.DebeziumChangeEvent)
    (w1 : Js.World MockElasticsearch.t EsCall)
    (w2 : Js.World MockRedis.t RedisCall) :
  let s1 := (SearchIndexer.apply event w1).2 in
  let s2 := (SearchIndexer.apply event s1).2 in
  let c1 := (CacheUpdater.apply event w2).2 in
  let c2 := (CacheUpdater.apply event c1).2 in
  let later :=
    Js.mkWorld (Js.store w2) (Js.clock w2) (Js.ticks c1) (Js.calls c1) (Js.console c1) in
  Js.store s2 = Js.store s1
  /\ cache_contents (Js.store c2) = cache_contents (Js.store c1)
  /\ Js.store c2 = Js.store (CacheUpdater.apply event later).2.
Proof.
  cbv zeta. split; [|split].
  - rewrite !search_apply_store. apply search_effect_idempotent.
  - destruct (cache_apply_store event w2) as [Hs1 Hc1].
    destruct (cache_apply_store event (CacheUpdater.apply event w2).2) as [Hs2 _].
    cbv zeta in *. rewrite Hs2, Hs1, cache_effect_overwrites.
    apply cache_contents_ignore_clock.
  - destruct (cache_apply_store event w2) as [Hs1 Hc1].
    destruct (cache_apply_store event (CacheUpdater.apply event w2).2) as [Hs2 _].
    match goal with |- _ = Js.store (CacheUpdater.apply event ?l).2 =>
      destruct (cache_apply_store event l) as [Hs3 _] end.
    cbv zeta in *. rewrite Hs2, Hs3, Hs1, Hc1, cache_effect_overwrites.
    reflexivity.
Qed.

(** With a clock that stands still the cache is the same, timestamps
    included. *)
Lemma replay_is_idempotent_on_a_frozen_clock
    (event : Event.DebeziumChangeEvent) (t : Z) (r : MockRedis.t)
    (k : nat) (cs : list RedisCall) (ls : list Js.Level) :
  let w := Js.mkWorld r (frozen t) k cs ls in
  let c1 := (CacheUpdater.apply event w).2 in
  Js.store (CacheUpdater.apply event c1).2 = Js.store c1.
Proof.
  cbv zeta.
  destruct (cache_apply_store event (Js.mkWorld r (frozen t) k cs ls)) as [Hs1 Hc1].
  destruct (cache_apply_store event
              (CacheUpdater.apply event (Js.mkWorld r (frozen t) k cs ls)).2)
    as [Hs2 _].
  cbv zeta in *. rewrite Hs2, Hc1, Hs1. cbn. apply cache_effect_overwrites.
Qed.

(** ** Deleting a row that is not there *)

Lemma search_delete_absent_closed (p : Event.Payload) (post : Post.t) (i : Z)
    (w : Js.World MockElasticsearch.t EsCall) :
  Event.before p = Some post -> Post.id post = Some i ->
  MockElasticsearch.getAllDocuments "posts" (Js.store w) !! pretty i = None ->
  SearchIndexer.handleDelete (Event.mkEvent (Some p)) w
  = (Js.Resolved tt,
     Js.mkWorld (Js.store w) (Js.clock w) (S (Js.ticks w))
       (Js.calls w ++ [EsDelete (MockElasticsearch.mkDeleteParams "posts" (pretty i))])
       (Js.console w ++ [Js.Log])).
Proof.
  intros Hbefore Hid Habsent.
  unfold SearchIndexer.handleDelete, Js.try_catch, Js.bind, Js.invoke,
    Js.console_write.
  run_handler. rewrite Hbefore. run_handler. rewrite Hid. run_handler.
  rewrite delete_absent by exact Habsent. reflexivity.
Qed.

(** C4. A delete record whose [before] identifier is absent from the
    downstream store is applied successfully by both projections and
    leaves the store as it was. On the search side the double answers
    404, which the handler ignores without even logging an error; on the
    cache side [del] and [zrem] of what is not there change nothing. *)
Theorem delete_of_absent_row_is_success
    (p : Event.Payload) (post : Post.t) (i : Z)
    (w1 : Js.World MockElasticsearch.t EsCall)
    (w2 : Js.World MockRedis.t RedisCall) :
  Event.op p = "d" ->
  Event.before p = Some post ->
  Post.id post = Some i ->
  MockElasticsearch.getAllDocuments "posts" (Js.store w1) !! pretty i = None ->
  MockRedis.data (Js.store w2) !! CacheUpdater.cacheKey (Some i) = None ->
  MockRedis.expiry (Js.store w2) !! CacheUpdater.cacheKey (Some i) = None ->
  MockRedis.sortedSets (Js.store w2) !! CacheUpdater.cacheKey (Some i) = None ->
  default ∅ (MockRedis.sortedSets (Js.store w2)
               !! CacheUpdater.authorKey (Post.author post)) !! pretty i = None ->
  let s := SearchIndexer.apply (Event.mkEvent (Some p)) w1 in
  let c := CacheUpdater.apply (Event.mkEvent (Some p)) w2 in
  (s.1 = Js.Resolved tt /\ Js.store s.2 = Js.store w1
   /\ Js.console s.2 = Js.console w1 ++ [Js.Log; Js.Log])
  /\ (c.1 = Js.Resolved tt /\ Js.store c.2 = Js.store w2
      /\ Js.console c.2 = Js.console w2 ++ [Js.Log; Js.Log; Js.Log; Js.Log]).
Proof.
  intros Hop Hbefore Hid Hdoc Hdata Hexpiry Hsets Hmember. cbv zeta. split.
  - rewrite (search_apply_delete p w1 Hop).
    rewrite (search_delete_absent_closed p post i (logged w1) Hbefore Hid Hdoc).
    cbn. rewrite <- List.app_assoc. repeat split; reflexivity.
  - rewrite (cache_apply_delete p w2 Hop).
    rewrite (cache_delete_closed p post i (logged w2) Hbefore Hid).
    cbn -[CacheUpdater.cacheKey CacheUpdater.authorKey].
    rewrite <- List.app_assoc. split; [reflexivity|]. split; [|reflexivity].
    rewrite !delete_id by assumption.
    rewrite alter_delete_absent by assumption.
    destruct (Js.store w2). reflexivity.
Qed.

(** Deleting identifier 42 from doubles that hold no 42. *)
Lemma delete_of_absent_row_is_success_witness :
  let p := Event.mkPayload (Some (Post.mk (Some 42) (Some "T") (Some "B") (Some "Alice")
                                    None None))
             None test_source "d" 0 in
  (SearchIndexer.apply (Event.mkEvent (Some p))
     (fresh MockElasticsearch.empty ticking)).1 = Js.Resolved tt
  /\ (CacheUpdater.apply (Event.mkEvent (Some p))
        (fresh MockRedis.empty ticking)).1 = Js.Resolved tt.
Proof.
  pose proof (delete_of_absent_row_is_success
    (Event.mkPayload (Some (Post.mk (Some 42) (Some "T") (Some "B") (Some "Alice")
                              None None))
       None test_source "d" 0)
    (Post.mk (Some 42) (Some "T") (Some "B") (Some "Alice") None None) 42
    (fresh MockElasticsearch.empty ticking) (fresh MockRedis.empty ticking)
    eq_refl eq_refl eq_refl eq_refl eq_refl eq_refl eq_refl eq_refl) as [Hs Hc].
  split; [exact (proj1 Hs) | exact (proj1 Hc)].
Defined.

(** ** What an upsert writes to the cache *)

(** C8, as stated, fails: after the tests' create record nothing is
    stored under "row:1" nor under "group:Test Author:rows"; the row is
    under "post:1" and the index under "author:Test Author:posts". *)
Lemma cache_keys_are_not_row_and_group :
  let event := createMockDebeziumEvent "c" None (Some test_post) in
  let r := Js.store (CacheUpdater.apply event (fresh MockRedis.empty ticking)).2 in
  MockRedis.data r !! "row:1" = None
  /\ MockRedis.sortedSets r !! "group:Test Author:rows" = None
  /\ MockRedis.data r !! "post:1" = Some (CacheUpdater.cacheValue test_post)
  /\ dom (default ∅ (MockRedis.sortedSets r !! "author:Test Author:posts"))
     = ({[ "1" ]} : gset string).
Proof.
  cbv zeta. repeat split; vm_compute; reflexivity.
Qed.

(** C8, amended. For every create, update or snapshot record whose row
    has an identifier, the cache projection calls [setex] on the key
    "post:{id}" with a ttl of 300 seconds and the JSON of
    {id, title, content, author, created_at, updated_at} as value, then
    [zadd] on the key "author:{author}:posts" with the identifier as
    member and the current time as score, then [expire] on that key with
    300 seconds. In the Redis double the row is then stored with a
    deadline 300 s after the [setex], and the author's ordered set holds
    the identifier with that score and has its own deadline 300 s after
    the [expire], whatever its deadline was before. *)
Theorem cache_upsert_writes_row_and_author_index
    (p : Event.Payload) (post : Post.t) (i : Z)
    (w : Js.World MockRedis.t RedisCall) :
  Event.op p ∈ ["c"; "u"; "r"] ->
  Event.after p = Some post ->
  Post.id post = Some i ->
  let key := "post:" +:+ pretty i in
  let akey := "author:" +:+ Js.template_str (Post.author post) +:+ ":posts" in
  let value :=
    JSON.object
      (JSON.property "id" (Some (JSON.of_number i))
       ++ JSON.property "title" (JSON.of_string <$> Post.title post)
       ++ JSON.property "content" (JSON.of_string <$> Post.content post)
       ++ JSON.property "author" (JSON.of_string <$> Post.author post)
       ++ JSON.property "created_at" (JSON.of_string <$> Post.created_at post)
       ++ JSON.property "updated_at" (JSON.of_string <$> Post.updated_at post)) in
  let score := Js.clock w (S (Js.ticks w)) in
  let r := (CacheUpdater.apply (Event.mkEvent (Some p)) w) in
  let set := default ∅ (MockRedis.sortedSets (Js.store r.2) !! akey) in
  r.1 = Js.Resolved tt
  /\ Js.calls r.2
     = Js.calls w ++ [Setex key 300 value; Zadd akey score (pretty i); Expire akey 300]
  /\ MockRedis.data (Js.store r.2) !! key = Some value
  /\ MockRedis.expiry (Js.store r.2) !! key
     = Some (Js.clock w (Js.ticks w) + 300 * 1000)
  /\ set !! pretty i = Some score
  /\ dom set
     = {[ pretty i ]} ∪ dom (default ∅ (MockRedis.sortedSets (Js.store w) !! akey))
  /\ MockRedis.expiry (Js.store r.2) !! akey
     = Some (Js.clock w (S (S (S (Js.ticks w)))) + 300 * 1000).
Proof.
  intros Hop Hafter Hid. cbv zeta.
  rewrite (cache_apply_upsert p w Hop).
  rewrite (cache_upsert_closed p post i (logged w) Hafter Hid).
  pose proof (cacheKey_ne_authorKey (Some i) (Post.author post)) as Hne.
  unfold CacheUpdater.cacheValue, CacheUpdater.cacheKey, CacheUpdater.authorKey in *.
  rewrite Hid. cbn -[JSON.object JSON.property String.append pretty Z.mul Z.add].
  rewrite !lookup_insert_eq.
  rewrite lookup_insert_ne by (intros Heq; apply Hne; symmetry; exact Heq).
  rewrite lookup_insert_eq.
  cbn -[JSON.object JSON.property String.append pretty Z.mul Z.add].
  rewrite lookup_insert_eq, dom_insert_L.
  repeat split; reflexivity.
Qed.

Lemma cache_upsert_writes_row_and_author_index_witness :
  let event := createMockDebeziumEvent "c" None (Some test_post) in
  let r := CacheUpdater.apply event (fresh MockRedis.empty ticking) in
  "c" ∈ ["c"; "u"; "r"]
  /\ Js.calls r.2
     = [Setex "post:1" 300 (CacheUpdater.cacheValue test_post);
        Zadd "author:Test Author:posts" 1700000000001 "1";
        Expire "author:Test Author:posts" 300].
Proof.
  assert (Hc : "c" ∈ ["c"; "u"; "r"]) by apply list_elem_of_here.
  split; [exact Hc|].
  exact (proj1 (proj2
    (cache_upsert_writes_row_and_author_index
       (Event.mkPayload None (Some test_post) test_source "c" 0) test_post 1
       (fresh MockRedis.empty ticking) Hc eq_refl eq_refl))).
Defined.

(** ** The per-author index *)

Section AuthorIndex.
Variable author : option string.
Implicit Types (w : Js.World MockRedis.t RedisCall).

Lemma author_posts_after_create (p : Event.Payload) (i : Z) w :
  creates author p i ->
  author_posts author (CacheUpdater.apply (Event.mkEvent (Some p)) w).2
  = {[ pretty i ]} ∪ author_posts author w.
Proof.
  intros (Hop & post & Hafter & Hid & Hauthor). unfold author_posts.
  destruct (cache_apply_store (Event.mkEvent (Some p)) w) as [Hstore _].
  cbv zeta in Hstore. rewrite Hstore.
  unfold cache_effect, upsert_effect. cbn. rewrite Hop, Hafter, Hid, Hauthor. cbn.
  rewrite lookup_insert_eq. cbn. apply dom_insert_L.
Qed.

Lemma author_posts_after_delete (p : Event.Payload) (i : Z) w :
  deletes author p i ->
  author_posts author (CacheUpdater.apply (Event.mkEvent (Some p)) w).2
  = author_posts author w ∖ {[ pretty i ]}.
Proof.
  intros (Hop & post & Hbefore & Hid & Hauthor). unfold author_posts.
  destruct (cache_apply_store (Event.mkEvent (Some p)) w) as [Hstore _].
  cbv zeta in Hstore. rewrite Hstore.
  unfold cache_effect, delete_effect. cbn. rewrite Hop, Hbefore, Hid, Hauthor. cbn.
  rewrite lookup_alter_eq.
  rewrite lookup_delete_ne by apply cacheKey_ne_authorKey.
  destruct (MockRedis.sortedSets (Js.store w) !! CacheUpdater.authorKey author);
    cbn; [apply dom_delete_L | rewrite dom_empty_L; by rewrite difference_disjoint_L].
Qed.

Lemma author_posts_after_creates (records : list Event.Payload) (ids : list Z) w :
  Forall2 (creates author) records ids ->
  author_posts author (apply_all records w)
  = list_to_set (pretty <$> ids) ∪ author_posts author w.
Proof.
  intros Hall. revert w.
  induction Hall as [|p i records ids Hp Hall IH]; intros w.
  - cbn. by rewrite (left_id_L ∅ (∪)).
  - change (apply_all (p :: records) w)
      with (apply_all records (CacheUpdater.apply (Event.mkEvent (Some p)) w).2).
    rewrite IH, (author_posts_after_create p i w Hp).
    rewrite fmap_cons, list_to_set_cons.
    rewrite (assoc_L (∪)). f_equal. apply (comm_L (∪)).
Qed.
End AuthorIndex.

(** C7. Group index consistency. Starting from a cache in which the
    author has no ordered set yet, after N create records with N distinct
    identifiers for that author the author's ordered set contains exactly
    those N identifiers, and after a delete record for one of them it
    contains exactly the N-1 others. *)
Theorem group_index_consistency
    (author : option string) (records : list Event.Payload) (ids : list Z)
    (removal : Event.Payload) (removed : Z)
    (w : Js.World MockRedis.t RedisCall) :
  Forall2 (creates author) records ids ->
  NoDup ids ->
  MockRedis.sortedSets (Js.store w) !! CacheUpdater.authorKey author = None ->
  deletes author removal removed ->
  removed ∈ ids ->
  let created := apply_all records w in
  let deleted := (CacheUpdater.apply (Event.mkEvent (Some removal)) created).2 in
  (author_posts author created = list_to_set (pretty <$> ids)
   /\ size (author_posts author created) = length records)
  /\ (author_posts author deleted
      = list_to_set (pretty <$> filter (fun i => i ≠ removed) ids)
      /\ size (author_posts author deleted) = (length records - 1)%nat).
Proof.
  intros Hcreates Hnodup Hfresh Hdelete Hin. cbv zeta.
  assert (author_posts author (apply_all records w)
          = list_to_set (pretty <$> ids)) as Hcreated.
  { rewrite (author_posts_after_creates author records ids w Hcreates).
    unfold author_posts. rewrite Hfresh. cbn.
    rewrite dom_empty_L. apply (right_id_L ∅ (∪)). }
  assert (size (author_posts author (apply_all records w)) = length records) as Hsize.
  { rewrite Hcreated, size_list_to_set by (apply (NoDup_fmap_2 _); exact Hnodup).
    rewrite length_fmap. symmetry. exact (Forall2_length _ _ _ Hcreates). }
  split; [split; assumption|].
  rewrite (author_posts_after_delete author removal removed _ Hdelete).
  split.
  - rewrite Hcreated. apply set_eq. intros x.
    rewrite elem_of_difference, !elem_of_list_to_set, !list_elem_of_fmap,
      not_elem_of_singleton.
    split.
    + intros [(i & -> & Hi) Hne]. exists i. split; [reflexivity|].
      apply list_elem_of_filter. split; [congruence | exact Hi].
    + intros (i & -> & Hi). apply list_elem_of_filter in Hi as [Hne Hi].
      split; [eauto|]. intros Heq. apply Hne. by apply (inj pretty).
  - rewrite size_difference.
    + rewrite Hsize, size_singleton. reflexivity.
    + rewrite Hcreated. apply singleton_subseteq_l, elem_of_list_to_set.
      apply list_elem_of_fmap. eauto.
Qed.

(** Three posts of Alice, then the second one deleted. *)
Lemma group_index_consistency_witness :
  let created := apply_all alice_creates (fresh MockRedis.empty ticking) in
  let deleted := (CacheUpdater.apply (Event.mkEvent (Some alice_removal)) created).2 in
  size (author_posts (Some "Alice") created) = 3%nat
  /\ size (author_posts (Some "Alice") deleted) = 2%nat.
Proof.
  assert (Forall2 (creates (Some "Alice")) alice_creates [1; 2; 3]) as Hcreates.
  { repeat constructor; eexists; repeat split; reflexivity. }
  assert (NoDup [1; 2; 3]) as Hnodup.
  { repeat constructor; rewrite ?elem_of_cons, ?elem_of_nil; lia. }
  assert (deletes (Some "Alice") alice_removal 2) as Hdelete.
  { split; [reflexivity|]. eexists. repeat split; reflexivity. }
  assert (2 ∈ [1; 2; 3]) as Hin.
  { apply list_elem_of_further, list_elem_of_here. }
  pose proof (group_index_consistency (Some "Alice") alice_creates [1; 2; 3]
                alice_removal 2 (fresh MockRedis.empty ticking)
                Hcreates Hnodup eq_refl Hdelete Hin) as [[_ H3] [_ H2]].
  split; [exact H3 | exact H2].
Defined.

(** * Further properties of the code around the consumers *)

#[local] Set Warnings "-clear-no-such-hyp".

(** ** Reading the Redis double: [get] and expiry *)

Lemma checkExpiry_live (key : string) (now deadline : Z) (r : MockRedis.t) :
  MockRedis.expiry r !! key = Some deadline -> now <= deadline ->
  MockRedis.checkExpiry key now r = r.
Proof.
  intros Hdeadline Hlive. unfold MockRedis.checkExpiry. rewrite Hdeadline.
  replace (deadline <? now) with false by (symmetry; apply Z.ltb_ge; lia).
  by rewrite andb_false_r.
Qed.

Lemma checkExpiry_expired (key : string) (now deadline : Z) (r : MockRedis.t) :
  MockRedis.expiry r !! key = Some deadline -> deadline <> 0 -> deadline < now ->
  MockRedis.checkExpiry key now r
  = MockRedis.mk (base.delete key (MockRedis.data r))
      (base.delete key (MockRedis.expiry r))
      (base.delete key (MockRedis.sortedSets r)).
Proof.
  intros Hdeadline Hnonzero Hpast. unfold MockRedis.checkExpiry. rewrite Hdeadline.
  replace (deadline =? 0) with false by (symmetry; apply Z.eqb_neq; lia).
  replace (deadline <? now) with true by (symmetry; apply Z.ltb_lt; lia).
  reflexivity.
Qed.

(** X1. A value written with [setex] is read back by [get] at every
    instant up to and including its deadline (the instant of the write
    plus [seconds] times 1000), and that read changes nothing. *)
Theorem setex_then_get_before_deadline
    (key value : string) (seconds written read : Z) (r : MockRedis.t) :
  read <= written + seconds * 1000 ->
  let r1 := (MockRedis.setex key seconds value written r).2 in
  MockRedis.get key read r1 = (Js.Resolved (Some value), r1).
Proof.
  intros Hlive. cbv zeta. unfold MockRedis.get.
  rewrite (checkExpiry_live key read (written + seconds * 1000));
    [| apply lookup_insert_eq | exact Hlive].
  cbn. by rewrite lookup_insert_eq.
Qed.

Lemma setex_then_get_before_deadline_witness :
  1300 <= 1000 + 300 * 1000
  /\ (MockRedis.get "post:1" 1300
        (MockRedis.setex "post:1" 300 "v" 1000 MockRedis.empty).2).1
     = Js.Resolved (Some "v").
Proof.
  assert (H : 1300 <= 1000 + 300 * 1000) by lia.
  split; [exact H|].
  exact (f_equal fst
           (setex_then_get_before_deadline "post:1" "v" 300 1000 1300
              MockRedis.empty H)).
Defined.

(** X2. Once the deadline of a [setex] has passed (and is not the
    instant 0, which [checkExpiry] takes for "no deadline"), [get]
    answers [null] and takes the key out of the values, the deadlines and
    the ordered sets alike; every other key is left as it was. *)
Theorem setex_then_get_after_deadline
    (key value : string) (seconds written read : Z) (r : MockRedis.t) :
  written + seconds * 1000 < read ->
  written + seconds * 1000 <> 0 ->
  let r1 := (MockRedis.setex key seconds value written r).2 in
  let g := MockRedis.get key read r1 in
  g.1 = Js.Resolved None
  /\ MockRedis.data g.2 !! key = None
  /\ MockRedis.expiry g.2 !! key = None
  /\ MockRedis.sortedSets g.2 !! key = None
  /\ (forall other, other ≠ key ->
        MockRedis.data g.2 !! other = MockRedis.data r !! other
        /\ MockRedis.expiry g.2 !! other = MockRedis.expiry r !! other
        /\ MockRedis.sortedSets g.2 !! other = MockRedis.sortedSets r !! other).
Proof.
  intros Hpast Hnonzero. cbv zeta. unfold MockRedis.get.
  rewrite (checkExpiry_expired key read (written + seconds * 1000));
    [| apply lookup_insert_eq | exact Hnonzero | exact Hpast].
  cbn. rewrite !lookup_delete_eq. repeat split; try reflexivity.
  - by rewrite lookup_delete_ne, lookup_insert_ne.
  - by rewrite lookup_delete_ne, lookup_insert_ne.
  - by rewrite lookup_delete_ne.
Qed.

Lemma setex_then_get_after_deadline_witness :
  (MockRedis.get "post:1" 301001
     (MockRedis.setex "post:1" 300 "v" 1000 MockRedis.empty).2).1
  = Js.Resolved None.
Proof.
  exact (proj1 (setex_then_get_after_deadline "post:1" "v" 300 1000 301001
                  MockRedis.empty ltac:(lia) ltac:(lia))).
Defined.

(** X3. [set] does not touch the deadline of a key: a value written with
    [set] over a key that was given a ttl by [setex] is served until the
    old deadline and is gone after it. *)
Theorem set_keeps_the_deadline_of_the_key
    (key value value' : string) (seconds written rewritten read : Z)
    (r : MockRedis.t) :
  written + seconds * 1000 <> 0 ->
  let r1 := (MockRedis.setex key seconds value written r).2 in
  let r2 := (MockRedis.set key value' rewritten r1).2 in
  MockRedis.expiry r2 !! key = Some (written + seconds * 1000)
  /\ (MockRedis.get key read r2).1
     = Js.Resolved (if read <=? written + seconds * 1000 then Some value' else None).
Proof.
  intros Hnonzero. cbv zeta. split; [apply lookup_insert_eq|].
  unfold MockRedis.get.
  destruct (Z.leb_spec read (written + seconds * 1000)) as [Hlive|Hpast].
  - rewrite (checkExpiry_live key read (written + seconds * 1000));
      [| apply lookup_insert_eq | exact Hlive].
    cbn. by rewrite lookup_insert_eq.
  - rewrite (checkExpiry_expired key read (written + seconds * 1000));
      [| apply lookup_insert_eq | exact Hnonzero | exact Hpast].
    cbn. by rewrite lookup_delete_eq.
Qed.

Lemma set_keeps_the_deadline_of_the_key_witness :
  (MockRedis.get "k" 70000
     (MockRedis.set "k" "new" 2000
        (MockRedis.setex "k" 60 "old" 1000 MockRedis.empty).2).2).1
  = Js.Resolved None.
Proof.
  exact (proj2 (set_keeps_the_deadline_of_the_key "k" "old" "new" 60 1000 2000 70000
                  MockRedis.empty ltac:(lia))).
Defined.

(** ** [del] with several keys *)

Lemma del_one_fold (keys : list string) :
  forall (count : Z) (r : MockRedis.t),
    let res := foldl MockRedis.del_one (count, r) keys in
    res.1 = count + Z.of_nat (size ((list_to_set keys : gset string)
                                     ∩ dom (MockRedis.data r)))
    /\ forall k,
        MockRedis.data res.2 !! k
          = (if decide (k ∈ keys) then None else MockRedis.data r !! k)
        /\ MockRedis.expiry res.2 !! k
          = (if decide (k ∈ keys) then None else MockRedis.expiry r !! k)
        /\ MockRedis.sortedSets res.2 !! k
          = (if decide (k ∈ keys) then None else MockRedis.sortedSets r !! k).
Proof.
  induction keys as [|k0 keys IH]; intros count r; cbv zeta.
  - cbn. split.
    + rewrite (left_absorb_L ∅ (∩)), size_empty. lia.
    + intros k. rewrite decide_False by apply not_elem_of_nil. done.
  - change (foldl MockRedis.del_one (count, r) (k0 :: keys))
      with (foldl MockRedis.del_one (MockRedis.del_one (count, r) k0) keys).
    change (MockRedis.del_one (count, r) k0)
      with ((if bool_decide (is_Some (MockRedis.data r !! k0))
             then count + 1 else count),
            MockRedis.mk (base.delete k0 (MockRedis.data r))
              (base.delete k0 (MockRedis.expiry r))
              (base.delete k0 (MockRedis.sortedSets r))).
    match goal with |- context [foldl _ (?c, ?r1) keys] =>
      destruct (IH c r1) as [Hcount Hlookup] end.
    cbv zeta in Hcount, Hlookup. split.
    + rewrite Hcount. cbn [MockRedis.data]. rewrite dom_delete_L, list_to_set_cons.
      destruct (decide (k0 ∈ dom (MockRedis.data r))) as [Hin|Hout].
      * rewrite bool_decide_eq_true_2 by (by apply elem_of_dom).
        replace (({[k0]} ∪ list_to_set keys) ∩ dom (MockRedis.data r))
          with ({[k0]} ∪ (list_to_set keys : gset string)
                          ∩ (dom (MockRedis.data r) ∖ {[k0]}))
          by (apply set_eq; intros x; set_unfold;
              destruct (decide (x = k0)); naive_solver).
        pose proof (@size_union string (gset string) _ _ _ _ _ _ _ _ _) as Hunion.
        rewrite Hunion by (set_unfold; naive_solver).
        rewrite size_singleton. lia.
      * rewrite bool_decide_eq_false_2 by (by rewrite <- elem_of_dom).
        replace (({[k0]} ∪ list_to_set keys) ∩ dom (MockRedis.data r))
          with ((list_to_set keys : gset string)
                  ∩ (dom (MockRedis.data r) ∖ {[k0]}))
          by (apply set_eq; intros x; set_unfold; naive_solver).
        reflexivity.
    + intros k. destruct (Hlookup k) as (Hd & He & Hs).
      rewrite Hd, He, Hs. cbn [MockRedis.data MockRedis.expiry MockRedis.sortedSets].
      destruct (decide (k = k0)) as [->|Hne].
      * rewrite !lookup_delete_eq.
        destruct (decide (k0 ∈ k0 :: keys)) as [_|Hn];
          [|exfalso; apply Hn, list_elem_of_here].
        destruct (decide (k0 ∈ keys)); done.
      * rewrite !lookup_delete_ne by done.
        destruct (decide (k ∈ keys)) as [Hin|Hout],
                 (decide (k ∈ k0 :: keys)) as [Hin'|Hout']; try done.
        -- exfalso. apply Hout'. by apply list_elem_of_further.
        -- exfalso. apply elem_of_cons in Hin' as [?|?]; done.
Qed.

(** X4. [del] with any list of keys answers with the number of distinct
    listed keys that held a value (a key that only names an ordered set
    is not counted, a key listed twice is counted once); afterwards no
    listed key has a value, a deadline or an ordered set, and every key
    that was not listed is untouched. *)
Theorem del_removes_the_listed_keys_and_counts_values
    (keys : list string) (now : Z) (r : MockRedis.t) :
  let res := MockRedis.del keys now r in
  res.1 = Js.Resolved
            (Z.of_nat (size ((list_to_set keys : gset string)
                               ∩ dom (MockRedis.data r))))
  /\ (forall k, k ∈ keys ->
        MockRedis.data res.2 !! k = None
        /\ MockRedis.expiry res.2 !! k = None
        /\ MockRedis.sortedSets res.2 !! k = None)
  /\ (forall k, k ∉ keys ->
        MockRedis.data res.2 !! k = MockRedis.data r !! k
        /\ MockRedis.expiry res.2 !! k = MockRedis.expiry r !! k
        /\ MockRedis.sortedSets res.2 !! k = MockRedis.sortedSets r !! k).
Proof.
  cbv zeta. unfold MockRedis.del.
  destruct (del_one_fold keys 0 r) as [Hcount Hlookup]. cbv zeta in Hcount, Hlookup.
  destruct (foldl MockRedis.del_one (0, r) keys) as [count r'] eqn:Hfold.
  cbn in *. split; [by rewrite Hcount|].
  split; intros k Hk; destruct (Hlookup k) as (Hd & He & Hs);
    destruct (decide (k ∈ keys)); done.
Qed.

Example del_counts_values_only :
  (MockRedis.del ["post:1"; "author:Alice:posts"; "post:1"; "post:9"] 0
     (MockRedis.zadd "author:Alice:posts" 5 "1" 0
        (MockRedis.setex "post:1" 300 "v" 0 MockRedis.empty).2).2).1
  = Js.Resolved 1.
Proof. vm_compute. reflexivity. Qed.

(** ** Ordered sets: [zadd] and [zrem] *)

(** X5. Adding a member that the ordered set under [key] does not have
    and removing it again answers 1 both times and gives back the set's
    former members and scores; the key itself stays, so a set that did
    not exist before is now there and empty, and every other key is
    untouched. *)
Theorem zadd_then_zrem_of_a_new_member
    (key member : string) (score added removed : Z) (r : MockRedis.t) :
  default ∅ (MockRedis.sortedSets r !! key) !! member = None ->
  let a := MockRedis.zadd key score member added r in
  let z := MockRedis.zrem key member removed a.2 in
  a.1 = Js.Resolved 1
  /\ z.1 = Js.Resolved 1
  /\ MockRedis.sortedSets z.2
     = <[key := default ∅ (MockRedis.sortedSets r !! key)]> (MockRedis.sortedSets r)
  /\ MockRedis.data z.2 = MockRedis.data r
  /\ MockRedis.expiry z.2 = MockRedis.expiry r.
Proof.
  intros Hnew. cbv zeta. rewrite zadd_closed. cbn.
  rewrite (zrem_closed key member removed _
             (<[member := score]> (default ∅ (MockRedis.sortedSets r !! key))))
    by apply lookup_insert_eq.
  cbn. rewrite Hnew, lookup_insert_eq.
  rewrite bool_decide_eq_false_2 by (by intros [? ?]).
  rewrite bool_decide_eq_true_2 by eauto.
  rewrite insert_insert_eq, delete_insert_eq, delete_id by exact Hnew.
  repeat split; reflexivity.
Qed.

Lemma zadd_then_zrem_of_a_new_member_witness :
  MockRedis.sortedSets
    (MockRedis.zrem "author:Alice:posts" "1" 0
       (MockRedis.zadd "author:Alice:posts" 7 "1" 0 MockRedis.empty).2).2
  = <["author:Alice:posts" := ∅]> ∅.
Proof.
  exact (proj1 (proj2 (proj2
    (zadd_then_zrem_of_a_new_member "author:Alice:posts" "1" 7 0 0
       MockRedis.empty eq_refl)))).
Defined.

(** ** The Elasticsearch double as a document store *)

Lemma getAllDocuments_after_index (params : MockElasticsearch.IndexParams)
    (now : Z) (es : MockElasticsearch.t) (index : string) :
  MockElasticsearch.getAllDocuments index (MockElasticsearch.index params now es).2
  = if decide (MockElasticsearch.index_name params = index)
    then <[MockElasticsearch.index_id params := MockElasticsearch.document params]>
           (MockElasticsearch.getAllDocuments index es)
    else MockElasticsearch.getAllDocuments index es.
Proof.
  rewrite index_closed. unfold MockElasticsearch.getAllDocuments. cbn.
  rewrite lookup_insert. case_decide; subst; reflexivity.
Qed.

(** X6. [index] stores the document under its id and changes nothing
    else: the document count of the index grows by one when the id is
    new and stays the same when it replaces a document, every other id
    keeps its document, and the other indices are untouched. *)
Theorem index_stores_one_document
    (params : MockElasticsearch.IndexParams) (now : Z) (es : MockElasticsearch.t) :
  let name := MockElasticsearch.index_name params in
  let id := MockElasticsearch.index_id params in
  let es' := (MockElasticsearch.index params now es).2 in
  MockElasticsearch.getAllDocuments name es' !! id
    = Some (MockElasticsearch.document params)
  /\ MockElasticsearch.getDocumentCount name es'
     = match MockElasticsearch.getAllDocuments name es !! id with
       | Some _ => MockElasticsearch.getDocumentCount name es
       | None => S (MockElasticsearch.getDocumentCount name es)
       end
  /\ (forall other, other ≠ id ->
        MockElasticsearch.getAllDocuments name es' !! other
        = MockElasticsearch.getAllDocuments name es !! other)
  /\ (forall index, index ≠ name ->
        MockElasticsearch.getAllDocuments index es'
        = MockElasticsearch.getAllDocuments index es).
Proof.
  cbv zeta. unfold MockElasticsearch.getDocumentCount.
  rewrite !getAllDocuments_after_index, decide_True by reflexivity.
  split; [apply lookup_insert_eq|]. split; [|split].
  - destruct (MockElasticsearch.getAllDocuments _ es !! _) as [doc|] eqn:E.
    + rewrite <- (insert_id _ _ _ E) at 2. rewrite <- insert_delete_eq.
      rewrite <- (insert_delete_eq (MockElasticsearch.getAllDocuments _ es)).
      rewrite !map_size_insert_None by apply lookup_delete_eq. reflexivity.
    + by rewrite map_size_insert_None.
  - intros other Hother. by rewrite lookup_insert_ne.
  - intros index Hindex. rewrite getAllDocuments_after_index.
    by rewrite decide_False.
Qed.

(** X7. Deleting a document right after indexing it succeeds with
    [result = "deleted"] and leaves the index with the documents it had
    before, minus that id; deleting it once more is rejected with the
    404 error. *)
Theorem index_then_delete_round_trip
    (params : MockElasticsearch.IndexParams) (t0 t1 t2 : Z)
    (es : MockElasticsearch.t) :
  let name := MockElasticsearch.index_name params in
  let id := MockElasticsearch.index_id params in
  let gone := MockElasticsearch.mkDeleteParams name id in
  let es1 := (MockElasticsearch.index params t0 es).2 in
  let d := MockElasticsearch.delete gone t1 es1 in
  d.1 = Js.Resolved (MockElasticsearch.mkResponse name id "deleted")
  /\ MockElasticsearch.getAllDocuments name d.2
     = base.delete id (MockElasticsearch.getAllDocuments name es)
  /\ MockElasticsearch.delete gone t2 d.2
     = (Js.Rejected MockElasticsearch.not_found, d.2).
Proof.
  cbv zeta. rewrite index_closed.
  set (docs := <[MockElasticsearch.index_id params := MockElasticsearch.document params]>
                 (MockElasticsearch.getAllDocuments
                    (MockElasticsearch.index_name params) es)).
  rewrite (delete_present
             (MockElasticsearch.mkDeleteParams (MockElasticsearch.index_name params)
                (MockElasticsearch.index_id params))
             t1 _ docs (MockElasticsearch.document params));
    [| apply lookup_insert_eq | apply lookup_insert_eq].
  cbn. split; [reflexivity|]. split.
  - unfold MockElasticsearch.getAllDocuments at 1. cbn.
    rewrite lookup_insert_eq. cbn. subst docs. apply delete_insert_eq.
  - apply delete_absent. unfold MockElasticsearch.getAllDocuments. cbn.
    rewrite lookup_insert_eq. cbn. apply lookup_delete_eq.
Qed.

(** ** Convergence of the two projections *)

Lemma six_fields_id (post : Post.t) : six_fields post = post.
Proof. by destruct post. Qed.

Lemma is_upsert_code_true (operation : string) :
  operation ∈ ["c"; "u"; "r"] -> is_upsert_code operation = true.
Proof.
  intros Hop. apply upsert_code_cases in Hop as [-> | [-> | ->]]; reflexivity.
Qed.

Lemma getAllDocuments_after_delete (params : MockElasticsearch.DeleteParams)
    (now : Z) (es : MockElasticsearch.t) (index : string) :
  MockElasticsearch.getAllDocuments index (MockElasticsearch.delete params now es).2
  = if decide (MockElasticsearch.delete_index params = index)
    then base.delete (MockElasticsearch.delete_id params)
           (MockElasticsearch.getAllDocuments index es)
    else MockElasticsearch.getAllDocuments index es.
Proof.
  destruct (MockElasticsearch.documents es !! MockElasticsearch.delete_index params)
    as [docs|] eqn:E.
  - destruct (docs !! MockElasticsearch.delete_id params) as [doc|] eqn:Edoc.
    + rewrite (delete_present params now es docs doc E Edoc).
      unfold MockElasticsearch.getAllDocuments. cbn.
      destruct (decide (MockElasticsearch.delete_index params = index)) as [<-|Hne].
      * rewrite lookup_insert_eq, E. reflexivity.
      * by rewrite lookup_insert_ne.
    + rewrite delete_absent
        by (unfold MockElasticsearch.getAllDocuments; by rewrite E).
      cbn. case_decide; subst; [|reflexivity].
      unfold MockElasticsearch.getAllDocuments. rewrite E. cbn.
      by rewrite delete_id.
  - rewrite delete_absent
      by (unfold MockElasticsearch.getAllDocuments; by rewrite E).
    cbn. case_decide; subst; [|reflexivity].
    unfold MockElasticsearch.getAllDocuments. rewrite E. cbn.
    by rewrite delete_empty.
Qed.

(** X8. Last write wins in the search index. After a create, update or
    snapshot record for a row with an identifier, the document stored
    under that identifier in "posts" is the record's [after] row, whatever
    was stored there before, and the documents of all other identifiers
    are unchanged. *)
Theorem search_upsert_replaces_the_document
    (p : Event.Payload) (post : Post.t) (i : Z)
    (w : Js.World MockElasticsearch.t EsCall) :
  Event.op p ∈ ["c"; "u"; "r"] ->
  Event.after p = Some post ->
  Post.id post = Some i ->
  let es' := Js.store (SearchIndexer.apply (Event.mkEvent (Some p)) w).2 in
  MockElasticsearch.getAllDocuments "posts" es' !! pretty i = Some post
  /\ (forall other, other ≠ pretty i ->
        MockElasticsearch.getAllDocuments "posts" es' !! other
        = MockElasticsearch.getAllDocuments "posts" (Js.store w) !! other).
Proof.
  intros Hop Hafter Hid. cbv zeta. rewrite search_apply_store.
  unfold search_effect. cbn [Event.payload].
  rewrite (is_upsert_code_true _ Hop), Hafter, Hid.
  rewrite getAllDocuments_after_index. cbn [posts_params
    MockElasticsearch.index_name MockElasticsearch.index_id
    MockElasticsearch.document].
  rewrite decide_True by reflexivity. rewrite six_fields_id. split.
  - apply lookup_insert_eq.
  - intros other Hother. by rewrite lookup_insert_ne.
Qed.

Lemma search_upsert_replaces_the_document_witness :
  MockElasticsearch.getAllDocuments "posts"
    (Js.store (SearchIndexer.apply
                 (createMockDebeziumEvent "u" None (Some test_post))
                 (fresh MockElasticsearch.empty ticking)).2) !! "1"
  = Some test_post.
Proof.
  exact (proj1 (search_upsert_replaces_the_document
    (Event.mkPayload None (Some test_post) test_source "u" 0) test_post 1
    (fresh MockElasticsearch.empty ticking)
    ltac:(apply list_elem_of_further, list_elem_of_here) eq_refl eq_refl)).
Defined.

(** X9. A delete record for a row with an identifier converges in both
    projections, whatever they held: the search index "posts" is what it
    was minus the identifier; in the cache the values and deadlines are
    what they were minus the key "post:{id}", the author's ordered set
    is what it was minus the identifier, and a later [get] of the row
    answers [null] at any time. *)
Theorem delete_record_converges
    (p : Event.Payload) (post : Post.t) (i : Z) (read : Z)
    (w1 : Js.World MockElasticsearch.t EsCall)
    (w2 : Js.World MockRedis.t RedisCall) :
  Event.op p = "d" ->
  Event.before p = Some post ->
  Post.id post = Some i ->
  let es' := Js.store (SearchIndexer.apply (Event.mkEvent (Some p)) w1).2 in
  let c := (CacheUpdater.apply (Event.mkEvent (Some p)) w2).2 in
  let key := CacheUpdater.cacheKey (Some i) in
  MockElasticsearch.getAllDocuments "posts" es'
    = base.delete (pretty i) (MockElasticsearch.getAllDocuments "posts" (Js.store w1))
  /\ MockRedis.data (Js.store c) = base.delete key (MockRedis.data (Js.store w2))
  /\ MockRedis.expiry (Js.store c) = base.delete key (MockRedis.expiry (Js.store w2))
  /\ author_posts (Post.author post) c
     = author_posts (Post.author post) w2 ∖ {[ pretty i ]}
  /\ (MockRedis.get key read (Js.store c)).1 = Js.Resolved None.
Proof.
  intros Hop Hbefore Hid. cbv zeta. split.
  - rewrite search_apply_store. unfold search_effect. cbn [Event.payload].
    rewrite Hop, Hbefore, Hid. cbn [is_upsert_code String.eqb Ascii.eqb Bool.eqb orb].
    cbn -[MockElasticsearch.delete MockElasticsearch.getAllDocuments pretty].
    by rewrite getAllDocuments_after_delete.
  - assert (deletes (Post.author post) p i) as Hdeletes.
    { split; [exact Hop|]. exists post. done. }
    rewrite (author_posts_after_delete _ p i w2 Hdeletes).
    destruct (cache_apply_store (Event.mkEvent (Some p)) w2) as [Hstore _].
    cbv zeta in Hstore. rewrite Hstore. unfold cache_effect, delete_effect.
    cbn [Event.payload]. rewrite Hop, Hbefore, Hid.
    cbn -[CacheUpdater.cacheKey CacheUpdater.authorKey pretty].
    repeat split; try reflexivity.
    unfold MockRedis.get, MockRedis.checkExpiry.
    cbn -[CacheUpdater.cacheKey CacheUpdater.authorKey pretty].
    rewrite lookup_delete_eq.
    cbn -[CacheUpdater.cacheKey CacheUpdater.authorKey pretty].
    by rewrite lookup_delete_eq.
Qed.

Lemma delete_record_converges_witness :
  let created :=
    (CacheUpdater.apply (createMockDebeziumEvent "c" None (Some test_post))
       (fresh MockRedis.empty ticking)).2 in
  let deleted :=
    (CacheUpdater.apply (createMockDebeziumEvent "d" (Some test_post) None)
       created).2 in
  (MockRedis.get "post:1" 1700000000009 (Js.store created)).1
    = Js.Resolved (Some (CacheUpdater.cacheValue test_post))
  /\ (MockRedis.get "post:1" 1700000000009 (Js.store deleted)).1 = Js.Resolved None.
Proof.
  split; [vm_compute; reflexivity|].
  exact (proj2 (proj2 (proj2 (proj2
    (delete_record_converges
       (Event.mkPayload (Some test_post) None test_source "d" 0) test_post 1
       1700000000009
       (fresh MockElasticsearch.empty ticking)
       (CacheUpdater.apply (createMockDebeziumEvent "c" None (Some test_post))
          (fresh MockRedis.empty ticking)).2
       eq_refl eq_refl eq_refl))))).
Defined.

(** ** What an upsert never does to the author lists *)

(** X10. Upserts only ever add to the ordered sets: after a create,
    update or snapshot record every author's list still has all the
    members it had. In particular an update that moves a row to another
    author leaves the identifier in the former author's list, since the
    handler never looks at [before]. *)
Theorem upsert_never_removes_from_an_author_list
    (p : Event.Payload) (author : option string)
    (w : Js.World MockRedis.t RedisCall) :
  Event.op p ∈ ["c"; "u"; "r"] ->
  author_posts author w
  ⊆ author_posts author (CacheUpdater.apply (Event.mkEvent (Some p)) w).2.
Proof.
  intros Hop. unfold author_posts.
  destruct (cache_apply_store (Event.mkEvent (Some p)) w) as [Hstore _].
  cbv zeta in Hstore. rewrite Hstore. unfold cache_effect. cbn [Event.payload].
  rewrite (is_upsert_code_true _ Hop).
  destruct (Event.after p) as [post|]; [|reflexivity].
  unfold upsert_effect. destruct (Post.id post) as [i|]; [|reflexivity].
  cbn [MockRedis.sortedSets].
  destruct (decide (CacheUpdater.authorKey (Post.author post)
                    = CacheUpdater.authorKey author)) as [Heq|Hne].
  - rewrite Heq, lookup_insert_eq. cbn. rewrite dom_insert_L.
    apply union_subseteq_r.
  - by rewrite lookup_insert_ne.
Qed.

(** Post 1 of Alice, then updated to belong to Bob: Alice's list still
    holds it. *)
Lemma upsert_never_removes_from_an_author_list_witness :
  let created :=
    (CacheUpdater.apply
       (Event.mkEvent (Some (Event.mkPayload None (Some (alice_post 1)) test_source "c" 0)))
       (fresh MockRedis.empty ticking)).2 in
  let moved :=
    (CacheUpdater.apply
       (Event.mkEvent (Some (Event.mkPayload (Some (alice_post 1)) (Some moved_post)
                               test_source "u" 0)))
       created).2 in
  "1" ∈ author_posts (Some "Alice") moved /\ "1" ∈ author_posts (Some "Bob") moved.
Proof.
  split; [|vm_compute; reflexivity].
  apply (upsert_never_removes_from_an_author_list
           (Event.mkPayload (Some (alice_post 1)) (Some moved_post) test_source "u" 0)
           (Some "Alice") _
           ltac:(apply list_elem_of_further, list_elem_of_here)).
  vm_compute. reflexivity.
Defined.

(** ** The handler copies of the unit tests against the deployed handlers *)

(** X11. On a healthy store the handler copies of the unit tests do
    exactly what the deployed handlers do: for a row that passes the
    four-field check the two search upserts coincide, for a row with an
    identifier the two cache upserts, the two search deletes and the two
    cache deletes coincide, in outcome, store, calls and console. *)
Theorem test_copies_agree_with_deployed_handlers
    (p : Event.Payload) (post : Post.t) (i : Z)
    (w1 : Js.World MockElasticsearch.t EsCall)
    (w2 : Js.World MockRedis.t RedisCall) :
  Post.id post = Some i ->
  (Event.after p = Some post ->
   i ≠ 0 -> Js.truthy_str (Post.title post) = true ->
   Js.truthy_str (Post.content post) = true ->
   Js.truthy_str (Post.author post) = true ->
   SearchIndexerTest.handleCreateOrUpdate (Event.mkEvent (Some p)) w1
   = SearchIndexer.handleCreateOrUpdate (Event.mkEvent (Some p)) w1)
  /\ (Event.after p = Some post ->
      CacheUpdaterTest.handleCreateOrUpdate (Event.mkEvent (Some p)) w2
      = CacheUpdater.handleCreateOrUpdate (Event.mkEvent (Some p)) w2)
  /\ (Event.before p = Some post ->
      SearchIndexerTest.handleDelete (Event.mkEvent (Some p)) w1
      = SearchIndexer.handleDelete (Event.mkEvent (Some p)) w1)
  /\ (Event.before p = Some post ->
      CacheUpdaterTest.handleDelete (Event.mkEvent (Some p)) w2
      = CacheUpdater.handleDelete (Event.mkEvent (Some p)) w2).
Proof.
  intros Hid. split; [|split; [|split]].
  - intros Hafter Hnonzero Htitle Hcontent Hauthor.
    rewrite (search_upsert_closed p post i w1 Hafter Hid).
    unfold SearchIndexerTest.handleCreateOrUpdate, Js.bind, Js.invoke,
      Js.console_write.
    run_handler. rewrite Hafter. run_handler.
    rewrite Hid, Htitle, Hcontent, Hauthor.
    replace (Js.truthy_num (Some i)) with true
      by (symmetry; cbn; apply negb_true_iff, Z.eqb_neq; exact Hnonzero).
    run_handler. rewrite index_closed. run_handler.
    rewrite <- List.app_assoc. reflexivity.
  - intros Hafter.
    rewrite (cache_upsert_closed p post i w2 Hafter Hid).
    unfold CacheUpdaterTest.handleCreateOrUpdate,
      CacheUpdaterTest.updateAuthorPostsList, Js.bind, Js.invoke, Js.console_write.
    run_handler. rewrite Hafter. run_handler. rewrite Hid. run_handler.
    rewrite zadd_closed. run_handler.
    erewrite expire_on_sorted_set by (run_handler; apply lookup_insert_eq).
    run_handler. rewrite <- !List.app_assoc. reflexivity.
  - intros Hbefore.
    unfold SearchIndexerTest.handleDelete, SearchIndexer.handleDelete,
      Js.try_catch, Js.bind, Js.invoke, Js.console_write.
    run_handler. rewrite Hbefore. run_handler. rewrite Hid. run_handler.
    destruct (MockElasticsearch.documents (Js.store w1) !! "posts") as [docs|] eqn:E.
    + destruct (docs !! pretty i) as [doc|] eqn:Edoc.
      * rewrite (delete_present (MockElasticsearch.mkDeleteParams "posts" (pretty i))
                   _ _ docs doc E Edoc).
        reflexivity.
      * rewrite (delete_absent (MockElasticsearch.mkDeleteParams "posts" (pretty i)))
          by (unfold MockElasticsearch.getAllDocuments; cbn; by rewrite E).
        reflexivity.
    + rewrite (delete_absent (MockElasticsearch.mkDeleteParams "posts" (pretty i)))
        by (unfold MockElasticsearch.getAllDocuments; cbn; by rewrite E).
      reflexivity.
  - intros Hbefore.
    rewrite (cache_delete_closed p post i w2 Hbefore Hid).
    unfold CacheUpdaterTest.handleDelete,
      CacheUpdaterTest.removeFromAuthorPostsList, Js.bind, Js.invoke,
      Js.console_write.
    run_handler. rewrite Hbefore. run_handler. rewrite Hid. run_handler.
    rewrite del_closed. run_handler. rewrite zrem_alter. run_handler.
    rewrite <- !List.app_assoc. reflexivity.
Qed.

Lemma test_copies_agree_with_deployed_handlers_witness :
  CacheUpdaterTest.handleCreateOrUpdate
    (createMockDebeziumEvent "c" None (Some test_post)) (fresh MockRedis.empty ticking)
  = CacheUpdater.handleCreateOrUpdate
      (createMockDebeziumEvent "c" None (Some test_post)) (fresh MockRedis.empty ticking).
Proof.
  exact (proj1 (proj2
    (test_copies_agree_with_deployed_handlers
       (Event.mkPayload None (Some test_post) test_source "c" 0) test_post 1
       (fresh MockElasticsearch.empty ticking) (fresh MockRedis.empty ticking)
       eq_refl)) eq_refl).
Defined.

(** X12. Where the two search deletes differ: when the client's [delete]
    rejects, the copy in the unit tests ignores the error only if its
    status code is 404 and rejects with that very error otherwise, while
    the deployed handler returns normally for every error. *)
Theorem test_copy_delete_propagates_all_but_404
    {D : Type} `{EsClient D}
    (p : Event.Payload) (post : Post.t) (i : Z) (e : Js.Error) (d : D)
    (w : Js.World D EsCall) :
  Event.before p = Some post ->
  Post.id post = Some i ->
  es_delete (MockElasticsearch.mkDeleteParams "posts" (pretty i))
    (Js.clock w (Js.ticks w)) (Js.store w) = (Js.Rejected e, d) ->
  (SearchIndexerTest.handleDelete (Event.mkEvent (Some p)) w).1
    = (if bool_decide (Js.statusCode e = Some 404)
       then Js.Resolved tt else Js.Rejected e)
  /\ (SearchIndexer.handleDelete (Event.mkEvent (Some p)) w).1 = Js.Resolved tt.
Proof.
  intros Hbefore Hid Hrejects. split; [|apply search_delete_never_rejects].
  unfold SearchIndexerTest.handleDelete, Js.try_catch, Js.bind, Js.invoke,
    Js.console_write.
  cbn -[pretty]. rewrite Hbefore. cbn -[pretty]. rewrite Hid. cbn -[pretty].
  rewrite Hrejects. cbn.
  destruct (decide (Js.statusCode e = Some 404)) as [H404|Hother].
  - rewrite bool_decide_eq_false_2 by (intros Hne; by apply Hne).
    by rewrite bool_decide_eq_true_2.
  - rewrite bool_decide_eq_true_2 by done.
    by rewrite bool_decide_eq_false_2.
Qed.

Lemma test_copy_delete_propagates_all_but_404_witness :
  (SearchIndexerTest.handleDelete
     (createMockDebeziumEvent "d" (Some test_post) None)
     (fresh es_delete_down ticking)).1 = Js.Rejected network_error.
Proof.
  exact (proj1
    (test_copy_delete_propagates_all_but_404
       (Event.mkPayload (Some test_post) None test_source "d" 0) test_post 1
       network_error (Vi.mkMock MockElasticsearch.empty (<["delete" := []]> ∅))
       (fresh es_delete_down ticking) eq_refl eq_refl eq_refl)).
Defined.

(** ** Which calls a record can cause *)

Ltac settle_method :=
  match goal with
  | |- context [let (_, _) := ?m in _] =>
      lazymatch m with
      | context [let (_, _) := _ in _] => fail
      | _ => destruct m as [[?|?] ?]
      end
  end.

Ltac close_calls :=
  cbn [Js.calls snd fst];
  eexists; split;
  [ rewrite <- ?List.app_assoc; first [reflexivity | symmetry; apply app_nil_r]
  | cbn; split; [reflexivity | lia] ].

(** X13. Whatever the downstream client answers, a record only causes
    calls that fit its operation code: a create, update or snapshot
    record leads to at most [setex], [zadd], [expire] on the cache and at
    most one [index] on the search side, a delete record to at most
    [del], [zrem] and at most one [delete], and any other code to no
    call at all. *)
Theorem records_only_cause_fitting_calls
    {D1 : Type} `{EsClient D1} {D2 : Type} `{RedisClient D2}
    (p : Event.Payload)
    (w1 : Js.World D1 EsCall) (w2 : Js.World D2 RedisCall) :
  (exists cs,
      Js.calls (SearchIndexer.apply (Event.mkEvent (Some p)) w1).2 = Js.calls w1 ++ cs
      /\ forallb (search_call_fits (Event.op p)) cs = true
      /\ (length cs <= 1)%nat)
  /\ (exists cs,
         Js.calls (CacheUpdater.apply (Event.mkEvent (Some p)) w2).2 = Js.calls w2 ++ cs
         /\ forallb (cache_call_fits (Event.op p)) cs = true
         /\ (length cs <= 3)%nat).
Proof.
  destruct p as [before after src operation ts].
  unfold search_call_fits, cache_call_fits, is_upsert_code.
  cbn [Event.op]. split.
  - unfold SearchIndexer.apply, SearchIndexer.handleCreateOrUpdate,
      SearchIndexer.handleDelete, Js.try_catch, Js.bind, Js.invoke,
      Js.console_write, Js.toString.
    cbn -[String.eqb pretty].
    destruct (String.eqb operation "c" || String.eqb operation "r"
              || String.eqb operation "u").
    + destruct after as [post|]; cbn -[String.eqb pretty]; [|close_calls].
      destruct (Post.id post); cbn -[String.eqb pretty]; [|close_calls].
      settle_method; close_calls.
    + destruct (String.eqb operation "d"); cbn -[String.eqb pretty]; [|close_calls].
      destruct before as [post|]; cbn -[String.eqb pretty]; [|close_calls].
      destruct (Post.id post); cbn -[String.eqb pretty]; [|close_calls].
      settle_method; [close_calls|].
      destruct (bool_decide _); close_calls.
  - unfold CacheUpdater.apply, CacheUpdater.handleCreateOrUpdate,
      CacheUpdater.handleDelete, CacheUpdater.updateAuthorPostsList,
      CacheUpdater.removeFromAuthorPostsList, Js.try_catch, Js.bind, Js.invoke,
      Js.console_write, Js.toString, Js.Date_now.
    cbn -[String.eqb pretty CacheUpdater.cacheKey CacheUpdater.authorKey
          CacheUpdater.cacheValue].
    destruct (String.eqb operation "c" || String.eqb operation "r"
              || String.eqb operation "u").
    + destruct after as [post|];
        cbn -[String.eqb pretty CacheUpdater.cacheKey CacheUpdater.authorKey
              CacheUpdater.cacheValue]; [|close_calls].
      settle_method; [|close_calls].
      destruct (Post.id post);
        cbn -[String.eqb pretty CacheUpdater.cacheKey CacheUpdater.authorKey
              CacheUpdater.cacheValue]; [|close_calls].
      settle_method; [|close_calls].
      cbn -[String.eqb pretty CacheUpdater.cacheKey CacheUpdater.authorKey
            CacheUpdater.cacheValue].
      settle_method; close_calls.
    + destruct (String.eqb operation "d");
        cbn -[String.eqb pretty CacheUpdater.cacheKey CacheUpdater.authorKey
              CacheUpdater.cacheValue]; [|close_calls].
      destruct before as [post|];
        cbn -[String.eqb pretty CacheUpdater.cacheKey CacheUpdater.authorKey
              CacheUpdater.cacheValue]; [|close_calls].
      settle_method; [|close_calls].
      destruct (Post.id post);
        cbn -[String.eqb pretty CacheUpdater.cacheKey CacheUpdater.authorKey
              CacheUpdater.cacheValue]; [|close_calls].
      settle_method; close_calls.
Qed.

(** ** Partial failure of a cache upsert *)

Lemma fn_without_rejection {D A} (method : string)
    (impl : Z -> D -> Js.Outcome A * D) (now : Z) (m : Vi.Mock D) :
  default [] (Vi.rejectOnce m !! method) = [] ->
  Vi.fn method impl now m
  = (let '(o, d) := impl now (Vi.target m) in (o, Vi.mkMock d (Vi.rejectOnce m))).
Proof.
  unfold Vi.fn. destruct (Vi.rejectOnce m !! method) as [[|? ?]|]; done.
Qed.

Lemma fn_with_rejection {D A} (method : string)
    (impl : Z -> D -> Js.Outcome A * D) (now : Z) (m : Vi.Mock D)
    (e : Js.Error) (rest : list Js.Error) :
  Vi.rejectOnce m !! method = Some (e :: rest) ->
  Vi.fn method impl now m
  = (Js.Rejected e, Vi.mkMock (Vi.target m) (<[method := rest]> (Vi.rejectOnce m))).
Proof. unfold Vi.fn. by intros ->. Qed.

(** X14. When [setex] goes through and the next [zadd] is made to
    reject, the deployed cache upsert still returns normally: the row is
    cached, the ordered sets are as they were and [expire] is never
    called, so the row and the author's list disagree and only the
    console knows. *)
Theorem failed_author_update_leaves_the_row_cached
    (p : Event.Payload) (post : Post.t) (i : Z) (e : Js.Error)
    (rest : list Js.Error) (w : Js.World (Vi.Mock MockRedis.t) RedisCall) :
  Event.after p = Some post ->
  Post.id post = Some i ->
  default [] (Vi.rejectOnce (Js.store w) !! "setex") = [] ->
  Vi.rejectOnce (Js.store w) !! "zadd" = Some (e :: rest) ->
  let r := CacheUpdater.handleCreateOrUpdate (Event.mkEvent (Some p)) w in
  let key := CacheUpdater.cacheKey (Some i) in
  let akey := CacheUpdater.authorKey (Post.author post) in
  r.1 = Js.Resolved tt
  /\ Js.calls r.2
     = Js.calls w ++ [Setex key 300 (CacheUpdater.cacheValue post);
                      Zadd akey (Js.clock w (S (Js.ticks w))) (pretty i)]
  /\ MockRedis.data (Vi.target (Js.store r.2)) !! key
     = Some (CacheUpdater.cacheValue post)
  /\ MockRedis.sortedSets (Vi.target (Js.store r.2))
     = MockRedis.sortedSets (Vi.target (Js.store w))
  /\ Js.console r.2 = Js.console w ++ [Js.Log; Js.Log; Js.Err].
Proof.
  intros Hafter Hid Hsetex Hzadd. cbv zeta.
  unfold CacheUpdater.handleCreateOrUpdate, CacheUpdater.updateAuthorPostsList,
    Js.try_catch, Js.bind, Js.invoke, Js.console_write.
  cbn -[Vi.fn pretty CacheUpdater.cacheKey CacheUpdater.authorKey
        CacheUpdater.cacheValue].
  rewrite Hafter.
  cbn -[Vi.fn pretty CacheUpdater.cacheKey CacheUpdater.authorKey
        CacheUpdater.cacheValue].
  rewrite (fn_without_rejection "setex") by exact Hsetex.
  rewrite Hid.
  cbn -[Vi.fn pretty CacheUpdater.cacheKey CacheUpdater.authorKey
        CacheUpdater.cacheValue].
  rewrite (fn_with_rejection "zadd" _ _ _ e rest) by exact Hzadd.
  cbn -[pretty CacheUpdater.cacheKey CacheUpdater.authorKey CacheUpdater.cacheValue].
  rewrite lookup_insert_eq, <- !List.app_assoc. repeat split; reflexivity.
Qed.

Lemma failed_author_update_leaves_the_row_cached_witness :
  let r := CacheUpdater.handleCreateOrUpdate
             (createMockDebeziumEvent "c" None (Some test_post))
             (fresh zadd_down ticking) in
  r.1 = Js.Resolved tt
  /\ MockRedis.sortedSets (Vi.target (Js.store r.2)) = ∅.
Proof.
  pose proof (failed_author_update_leaves_the_row_cached
    (Event.mkPayload None (Some test_post) test_source "c" 0) test_post 1
    connection_refused [] (fresh zadd_down ticking)
    eq_refl eq_refl eq_refl eq_refl) as (H1 & _ & _ & H4 & _).
  split; [exact H1 | exact H4].
Defined.

(** ** Cache keys *)

Lemma list_ascii_of_string_app (s t : string) :
  list_ascii_of_string (s +:+ t) = list_ascii_of_string s ++ list_ascii_of_string t.
Proof.
  induction s as [|c s IH]; [reflexivity|].
  change (String c s +:+ t) with (String c (s +:+ t)).
  cbn [list_ascii_of_string]. rewrite IH. reflexivity.
Qed.

Lemma string_app_inj_r (s1 s2 t : string) : s1 +:+ t = s2 +:+ t -> s1 = s2.
Proof.
  intros Heq. apply (f_equal list_ascii_of_string) in Heq.
  rewrite !list_ascii_of_string_app in Heq. apply app_inv_tail in Heq.
  apply (f_equal string_of_list_ascii) in Heq.
  by rewrite !string_of_list_ascii_of_string in Heq.
Qed.

(** X15. The keys of the cache do not collide: rows with different
    identifiers have different row keys, authors with different names
    have different list keys, and a row key is never a list key. *)
Theorem cache_keys_do_not_collide :
  (forall i j : Z,
      CacheUpdater.cacheKey (Some i) = CacheUpdater.cacheKey (Some j) -> i = j)
  /\ (forall a b : string,
         CacheUpdater.authorKey (Some a) = CacheUpdater.authorKey (Some b) -> a = b)
  /\ (forall (id : option Z) (author : option string),
         CacheUpdater.cacheKey id ≠ CacheUpdater.authorKey author).
Proof.
  split; [|split].
  - unfold CacheUpdater.cacheKey, Js.template_num. intros i j Heq.
    apply (inj (String.app "post:")) in Heq. by apply (inj pretty).
  - unfold CacheUpdater.authorKey, Js.template_str. intros a b Heq.
    apply (inj (String.app "author:")) in Heq.
    by apply string_app_inj_r in Heq.
  - apply cacheKey_ne_authorKey.
Qed.

(** A row without an author is filed under the author called
    "undefined". *)
Example missing_author_shares_a_key :
  CacheUpdater.authorKey None = CacheUpdater.authorKey (Some "undefined").
Proof. reflexivity. Qed.

(** ** The read path of the API server *)

Section ApiRead.
Context {D J : Type} `{ApiServer.Backend D}.
Variable JSON_parse : string -> Js.Outcome J.
Variable JSON_stringify : Post.t -> string.
Implicit Types (w : Js.World D ApiServer.Call).

Lemma getPost_always_responds (id : string) w :
  exists response,
    (ApiServer.getPost JSON_parse JSON_stringify id w).1 = Js.Resolved response.
Proof.
  unfold ApiServer.getPost, Js.try_catch.
  match goal with |- context [match ?b with _ => _ end] =>
    destruct b as [[response|e] w'] end; cbn; eauto.
Qed.
End ApiRead.

Lemma getPost_hit
    {D J : Type} `{ApiServer.Backend D}
    (JSON_parse : string -> Js.Outcome J) (JSON_stringify : Post.t -> string)
    (id cached : string) (post : J) (d : D) (w : Js.World D ApiServer.Call) :
  ApiServer.redis_get ("post:" +:+ id) (Js.clock w (Js.ticks w)) (Js.store w)
    = (Js.Resolved (Some cached), d) ->
  cached ≠ "" ->
  JSON_parse cached = Js.Resolved post ->
  ApiServer.getPost JSON_parse JSON_stringify id w
  = (Js.Resolved (ApiServer.mkResponse 200 (ApiServer.FromCache post)),
     Js.mkWorld d (Js.clock w) (S (Js.ticks w))
       (Js.calls w ++ [ApiServer.RedisGet ("post:" +:+ id)])
       (Js.console w ++ [Js.Log; Js.Log])).
Proof.
  intros Hget Hnonempty Hparse.
  unfold ApiServer.getPost, Js.try_catch, Js.bind, Js.invoke, Js.console_write,
    Js.settle.
  cbn -[String.append String.eqb]. rewrite Hget. cbn -[String.append String.eqb].
  replace (String.eqb cached "") with false
    by (symmetry; by apply String.eqb_neq).
  cbn -[String.append]. rewrite Hparse. cbn -[String.append].
  rewrite <- List.app_assoc. reflexivity.
Qed.

(** X16. A cache hit is served from the cache alone: when [redis.get]
    answers a non-empty string that [JSON.parse] accepts, [GET /posts/:id]
    responds 200 with the parsed value and source "cache", after that
    single call; the database is not queried and nothing is written. *)
Theorem getPost_hit_is_served_from_cache
    {D J : Type} `{ApiServer.Backend D}
    (JSON_parse : string -> Js.Outcome J) (JSON_stringify : Post.t -> string)
    (id cached : string) (post : J) (d : D) (w : Js.World D ApiServer.Call) :
  ApiServer.redis_get ("post:" +:+ id) (Js.clock w (Js.ticks w)) (Js.store w)
    = (Js.Resolved (Some cached), d) ->
  cached ≠ "" ->
  JSON_parse cached = Js.Resolved post ->
  let r := ApiServer.getPost JSON_parse JSON_stringify id w in
  r.1 = Js.Resolved (ApiServer.mkResponse 200 (ApiServer.FromCache post))
  /\ Js.calls r.2 = Js.calls w ++ [ApiServer.RedisGet ("post:" +:+ id)]
  /\ Js.store r.2 = d.
Proof.
  intros Hget Hnonempty Hparse. cbv zeta.
  rewrite (getPost_hit JSON_parse JSON_stringify id cached post d w Hget
             Hnonempty Hparse).
  repeat split; reflexivity.
Qed.

Lemma getPost_hit_is_served_from_cache_witness :
  let backend := ApiServer.MockBackend sample_table in
  let cached := (MockRedis.setex "post:1" 300 "cached" 1700000000000 MockRedis.empty).2 in
  (@ApiServer.getPost MockRedis.t string backend Js.Resolved
     CacheUpdater.cacheValue "1" (fresh cached ticking)).1
  = Js.Resolved (ApiServer.mkResponse 200 (ApiServer.FromCache "cached")).
Proof.
  exact (proj1 (@getPost_hit_is_served_from_cache MockRedis.t string
    (ApiServer.MockBackend sample_table) Js.Resolved CacheUpdater.cacheValue
    "1" "cached" "cached"
    (MockRedis.setex "post:1" 300 "cached" 1700000000000 MockRedis.empty).2
    (fresh (MockRedis.setex "post:1" 300 "cached" 1700000000000 MockRedis.empty).2 ticking)
    eq_refl ltac:(discriminate) eq_refl)).
Defined.

(** X17. A miss goes to the database: when [redis.get] answers [null]
    or the empty string, the handler selects the post; with no row it
    responds 404 and writes nothing, and with a row it caches the row's
    JSON under "post:{id}" for 60 seconds and responds 200 with the row
    and source "database". *)
Theorem getPost_miss_reads_the_database
    {D J : Type} `{ApiServer.Backend D}
    (JSON_parse : string -> Js.Outcome J) (JSON_stringify : Post.t -> string)
    (id : string) (cached : option string) (rows : list Post.t) (d1 d2 : D)
    (w : Js.World D ApiServer.Call) :
  ApiServer.redis_get ("post:" +:+ id) (Js.clock w (Js.ticks w)) (Js.store w)
    = (Js.Resolved cached, d1) ->
  ApiServer.is_hit cached = false ->
  ApiServer.pg_select_post id (Js.clock w (S (Js.ticks w))) d1
    = (Js.Resolved rows, d2) ->
  let r := ApiServer.getPost JSON_parse JSON_stringify id w in
  match rows with
  | [] =>
      r.1 = Js.Resolved
              (ApiServer.mkResponse 404 (ApiServer.Failure "Post not found" None))
      /\ Js.calls r.2
         = Js.calls w ++ [ApiServer.RedisGet ("post:" +:+ id); ApiServer.PgSelectPost id]
      /\ Js.store r.2 = d2
  | post :: _ =>
      forall d3,
        ApiServer.redis_setex ("post:" +:+ id) 60 (JSON_stringify post)
          (Js.clock w (S (S (Js.ticks w)))) d2 = (Js.Resolved "OK", d3) ->
        r.1 = Js.Resolved (ApiServer.mkResponse 200 (ApiServer.FromDatabase post))
        /\ Js.calls r.2
           = Js.calls w ++ [ApiServer.RedisGet ("post:" +:+ id);
                            ApiServer.PgSelectPost id;
                            ApiServer.RedisSetex ("post:" +:+ id) 60
                              (JSON_stringify post)]
        /\ Js.store r.2 = d3
  end.
Proof.
  intros Hget Hmiss Hselect. cbv zeta.
  unfold ApiServer.getPost, Js.try_catch, Js.bind, Js.invoke, Js.console_write,
    Js.settle.
  cbn -[String.append ApiServer.is_hit]. rewrite Hget.
  cbn -[String.append ApiServer.is_hit]. rewrite Hmiss.
  cbn -[String.append]. rewrite Hselect. cbn -[String.append].
  destruct rows as [|post rows'].
  - cbn -[String.append]. rewrite <- List.app_assoc. repeat split; reflexivity.
  - intros d3 Hsetex. cbn -[String.append]. rewrite Hsetex. cbn -[String.append].
    rewrite <- !List.app_assoc. repeat split; reflexivity.
Qed.

Lemma getPost_miss_reads_the_database_witness :
  let backend := ApiServer.MockBackend sample_table in
  let r := @ApiServer.getPost MockRedis.t string backend Js.Resolved
             CacheUpdater.cacheValue "7" (fresh MockRedis.empty ticking) in
  r.1 = Js.Resolved (ApiServer.mkResponse 404 (ApiServer.Failure "Post not found" None))
  /\ Js.store r.2 = MockRedis.empty.
Proof.
  pose proof (@getPost_miss_reads_the_database MockRedis.t string
    (ApiServer.MockBackend sample_table) Js.Resolved CacheUpdater.cacheValue
    "7" None [] MockRedis.empty MockRedis.empty (fresh MockRedis.empty ticking)
    eq_refl eq_refl eq_refl) as (H1 & _ & H3).
  split; [exact H1 | exact H3].
Defined.

(** X18. A failing Redis is not treated as a miss: when [redis.get]
    rejects, the handler responds 500 with the error's message and never
    queries the database. Every request is answered, whatever fails. *)
Theorem getPost_answers_500_when_redis_fails
    {D J : Type} `{ApiServer.Backend D}
    (JSON_parse : string -> Js.Outcome J) (JSON_stringify : Post.t -> string)
    (id : string) (e : Js.Error) (d : D) (w : Js.World D ApiServer.Call) :
  ApiServer.redis_get ("post:" +:+ id) (Js.clock w (Js.ticks w)) (Js.store w)
    = (Js.Rejected e, d) ->
  let r := ApiServer.getPost JSON_parse JSON_stringify id w in
  r.1 = Js.Resolved
          (ApiServer.mkResponse 500
             (ApiServer.Failure "Failed to fetch post" (Some (Js.message e))))
  /\ Js.calls r.2 = Js.calls w ++ [ApiServer.RedisGet ("post:" +:+ id)]
  /\ (forall id' w', exists response,
        (ApiServer.getPost JSON_parse JSON_stringify id' w').1 = Js.Resolved response).
Proof.
  intros Hget. cbv zeta. split; [|split].
  - unfold ApiServer.getPost, Js.try_catch, Js.bind, Js.invoke, Js.console_write.
    cbn -[String.append]. rewrite Hget. reflexivity.
  - unfold ApiServer.getPost, Js.try_catch, Js.bind, Js.invoke, Js.console_write.
    cbn -[String.append]. rewrite Hget. reflexivity.
  - intros id' w'. apply getPost_always_responds.
Qed.

Lemma getPost_answers_500_when_redis_fails_witness :
  let backend := ApiServer.ViBackend (ApiServer.MockBackend sample_table) in
  (@ApiServer.getPost (Vi.Mock MockRedis.t) string backend Js.Resolved
     CacheUpdater.cacheValue "1" (fresh redis_get_down ticking)).1
  = Js.Resolved
      (ApiServer.mkResponse 500
         (ApiServer.Failure "Failed to fetch post" (Some "Connection refused"))).
Proof.
  exact (proj1 (@getPost_answers_500_when_redis_fails (Vi.Mock MockRedis.t) string
    (ApiServer.ViBackend (ApiServer.MockBackend sample_table))
    Js.Resolved CacheUpdater.cacheValue "1" connection_refused
    (Vi.mkMock MockRedis.empty (<["get" := []]> ∅))
    (fresh redis_get_down ticking) eq_refl)).
Defined.

(** ** From the change stream to the read path *)

Lemma cacheValue_nonempty (post : Post.t) : CacheUpdater.cacheValue post ≠ "".
Proof. unfold CacheUpdater.cacheValue, JSON.object. discriminate. Qed.

(** X19. What the cache updater wrote is what the API serves. After a
    create, update or snapshot record for a row with an identifier, a
    [GET /posts/{id}] that reaches Redis no later than 300 s after the
    updater's [setex] is answered from the cache with the parsed JSON of
    the row, without a database query and without changing the cache. *)
Theorem propagated_post_is_served_from_cache
    {J : Type} (JSON_parse : string -> Js.Outcome J)
    (JSON_stringify : Post.t -> string) (table : string -> list Post.t)
    (p : Event.Payload) (post : Post.t) (i : Z) (parsed : J)
    (w : Js.World MockRedis.t RedisCall)
    (request : Js.World MockRedis.t ApiServer.Call) :
  Event.op p ∈ ["c"; "u"; "r"] ->
  Event.after p = Some post ->
  Post.id post = Some i ->
  JSON_parse (CacheUpdater.cacheValue post) = Js.Resolved parsed ->
  Js.store request = Js.store (CacheUpdater.apply (Event.mkEvent (Some p)) w).2 ->
  Js.clock request (Js.ticks request) <= Js.clock w (Js.ticks w) + 300 * 1000 ->
  let r := @ApiServer.getPost MockRedis.t J (ApiServer.MockBackend table)
             JSON_parse JSON_stringify (pretty i) request in
  r.1 = Js.Resolved (ApiServer.mkResponse 200 (ApiServer.FromCache parsed))
  /\ Js.calls r.2 = Js.calls request ++ [ApiServer.RedisGet ("post:" +:+ pretty i)]
  /\ Js.store r.2 = Js.store request.
Proof.
  intros Hop Hafter Hid Hparse Hstore Hlive. cbv zeta.
  destruct (cache_apply_store (Event.mkEvent (Some p)) w) as [Heffect _].
  cbv zeta in Heffect. rewrite Heffect in Hstore. unfold cache_effect in Hstore.
  cbn [Event.payload] in Hstore.
  rewrite (is_upsert_code_true _ Hop), Hafter in Hstore.
  unfold upsert_effect in Hstore. rewrite Hid in Hstore.
  pose proof (cacheKey_ne_authorKey (Some i) (Post.author post)) as Hne.
  assert (MockRedis.get ("post:" +:+ pretty i)
            (Js.clock request (Js.ticks request)) (Js.store request)
          = (Js.Resolved (Some (CacheUpdater.cacheValue post)), Js.store request))
    as Hget.
  { unfold MockRedis.get.
    rewrite (checkExpiry_live _ _ (Js.clock w (Js.ticks w) + 300 * 1000));
      [| | exact Hlive].
    - rewrite Hstore. cbn [MockRedis.data]. f_equal. f_equal. apply lookup_insert_eq.
    - rewrite Hstore. cbn [MockRedis.expiry].
      rewrite lookup_insert_ne by (intros Heq; apply Hne; symmetry; exact Heq).
      apply lookup_insert_eq. }
  rewrite (@getPost_hit MockRedis.t J (ApiServer.MockBackend table)
             JSON_parse JSON_stringify (pretty i) (CacheUpdater.cacheValue post)
             parsed (Js.store request) request Hget (cacheValue_nonempty post) Hparse).
  repeat split; reflexivity.
Qed.

Lemma propagated_post_is_served_from_cache_witness :
  let filled :=
    (CacheUpdater.apply (createMockDebeziumEvent "c" None (Some test_post))
       (fresh MockRedis.empty ticking)).2 in
  (@ApiServer.getPost MockRedis.t string (ApiServer.MockBackend sample_table)
     Js.Resolved CacheUpdater.cacheValue "1"
     (Js.mkWorld (Js.store filled) ticking 100 [] [])).1
  = Js.Resolved
      (ApiServer.mkResponse 200
         (ApiServer.FromCache (CacheUpdater.cacheValue test_post))).
Proof.
  exact (proj1 (@propagated_post_is_served_from_cache string Js.Resolved
    CacheUpdater.cacheValue sample_table
    (Event.mkPayload None (Some test_post) test_source "c" 0) test_post 1
    (CacheUpdater.cacheValue test_post)
    (fresh MockRedis.empty ticking)
    (Js.mkWorld
       (Js.store (CacheUpdater.apply (createMockDebeziumEvent "c" None (Some test_post))
                    (fresh MockRedis.empty ticking)).2)
       ticking 100 [] [])
    ltac:(apply list_elem_of_here) eq_refl eq_refl eq_refl eq_refl
    ltac:(vm_compute; discriminate))).
Defined.

(** ** Waiting for propagation *)

Import WaitForPropagation.

Ltac split_cases :=
  repeat (cbn -[pretty String.append];
          match goal with
          | |- context [match ?x with _ => _ end] =>
              lazymatch x with
              | context [match _ with _ => _ end] => fail
              | _ => destruct x eqn:?
              end
          end).

Section Checks.
Context {D : Type} `{Stores D}.
Variable JSON_parse : string -> Js.Outcome Post.t.
Variable postId : Z.
Variable options : Options.
Variable startTime : Z.
Implicit Types (st : Progress) (w : Js.World D Call).

(** One look at Elasticsearch: it never rejects, adds at most one call,
    none when the flag is already set, and leaves the Redis half of the
    progress alone. *)
Lemma checkElasticsearch_facts st w :
  let r := checkElasticsearch postId options startTime st w in
  exists st' cs,
    r.1 = Js.Resolved st'
    /\ Js.calls r.2 = Js.calls w ++ cs
    /\ (length cs <= 1)%nat
    /\ forallb (fun c => negb (is_redis_get c)) cs = true
    /\ redisMatched st' = redisMatched st
    /\ redisTime st' = redisTime st
    /\ (esMatched st = true -> st' = st /\ cs = []).
Proof.
  cbv zeta.
  unfold checkElasticsearch, es_matches, Js.try_catch, Js.bind, Js.invoke,
    Js.Date_now, Js.ret.
  destruct st as [em rm et rt]. cbn -[pretty].
  destruct em.
  - exists (mkProgress true rm et rt), []. cbn. rewrite app_nil_r.
    repeat split; try reflexivity; lia.
  - split_cases;
      eexists; eexists;
      (split; [reflexivity|]);
      (split; [cbn; reflexivity|]);
      (split; [cbn; lia|]);
      (split; [reflexivity|]);
      (split; [reflexivity|]);
      (split; [reflexivity|]);
      intros Hm; discriminate Hm.
Qed.

(** One look at Redis: at most one call, a [redis.get]; it leaves the
    Elasticsearch half of the progress alone; and when the flag is
    already set it does nothing. *)
Lemma checkRedis_facts st w :
  let r := checkRedis JSON_parse postId options startTime st w in
  exists cs,
    Js.calls r.2 = Js.calls w ++ cs
    /\ (length cs <= 1)%nat
    /\ forallb is_redis_get cs = true
    /\ (forall st', r.1 = Js.Resolved st' ->
          esMatched st' = esMatched st /\ esTime st' = esTime st)
    /\ (redisMatched st = true -> r.1 = Js.Resolved st /\ cs = []).
Proof.
  cbv zeta.
  unfold checkRedis, redis_matches, Js.bind, Js.invoke, Js.Date_now, Js.ret,
    Js.settle.
  destruct st as [em rm et rt]. cbn -[pretty String.append].
  destruct rm.
  - exists []. cbn. rewrite app_nil_r.
    split; [reflexivity|]. split; [lia|]. split; [reflexivity|]. split.
    + intros st'' [= <-]. split; reflexivity.
    + intros _. split; reflexivity.
  - split_cases;
      eexists;
      (split; [cbn; reflexivity|]);
      (split; [cbn; lia|]);
      (split; [reflexivity|]);
      (split;
       [ intros st'' Heq; cbn in Heq;
         first [discriminate Heq | injection Heq as <-; split; reflexivity]
       | intros Hm; discriminate Hm ]).
Qed.
End Checks.

Section Loop.
Context {D : Type} `{Stores D}.
Variable JSON_parse : string -> Js.Outcome Post.t.
Variable postId : Z.
Variable options : Options.
Variable startTime : Z.
Implicit Types (st : Progress) (w : Js.World D Call).

Lemma iterate_step (n : nat) st w :
  iterate JSON_parse postId options startTime (S n) st w
  = match checkElasticsearch postId options startTime st (slept w) with
    | (Js.Resolved st1, w1) =>
        match checkRedis JSON_parse postId options startTime st1 w1 with
        | (Js.Resolved st2, w2) =>
            if esMatched st2 && redisMatched st2 then (Js.Resolved st2, w2)
            else iterate JSON_parse postId options startTime n st2 w2
        | (Js.Rejected e, w2) => (Js.Rejected e, w2)
        end
    | (Js.Rejected e, w1) => (Js.Rejected e, w1)
    end.
Proof.
  cbn [iterate]. unfold Js.bind, sleep, slept, Js.ret. cbn.
  destruct (checkElasticsearch _ _ _ _ _) as [[st1|e] w1]; [|reflexivity].
  destruct (checkRedis _ _ _ _ _ _) as [[st2|e] w2]; [|reflexivity].
  destruct (esMatched st2 && redisMatched st2); reflexivity.
Qed.

Lemma iterate_calls (n : nat) :
  forall st w, exists cs,
    Js.calls (iterate JSON_parse postId options startTime n st w).2 = Js.calls w ++ cs
    /\ (length cs <= 2 * n)%nat.
Proof.
  induction n as [|n IH]; intros st w.
  - exists []. cbn. rewrite app_nil_r. split; [reflexivity | lia].
  - rewrite iterate_step.
    destruct (checkElasticsearch_facts postId options startTime st (slept w))
      as (st1 & cs1 & Hes & Hcalls1 & Hlen1 & _).
    cbv zeta in *.
    destruct (checkElasticsearch _ _ _ _ _) as [o1 w1]. cbn in Hes, Hcalls1. subst o1.
    destruct (checkRedis_facts JSON_parse postId options startTime st1 w1)
      as (cs2 & Hcalls2 & Hlen2 & _).
    cbv zeta in *.
    destruct (checkRedis _ _ _ _ _ _) as [[st2|e] w2]; cbn in Hcalls2.
    + destruct (esMatched st2 && redisMatched st2).
      * exists (cs1 ++ cs2). cbn. rewrite Hcalls2, Hcalls1, <- List.app_assoc.
        split; [reflexivity|]. rewrite length_app. lia.
      * destruct (IH st2 w2) as (cs3 & Hcalls3 & Hlen3).
        exists (cs1 ++ cs2 ++ cs3).
        rewrite Hcalls3, Hcalls2, Hcalls1, <- !List.app_assoc.
        split; [reflexivity|]. rewrite !length_app. lia.
    + exists (cs1 ++ cs2). cbn. rewrite Hcalls2, Hcalls1, <- List.app_assoc.
      split; [reflexivity|]. rewrite length_app. lia.
Qed.

End Loop.

(** X20. [waitForPropagation] polls a bounded number of times: whatever
    the two stores answer, it makes at most two client calls per
    iteration and at most [Math.ceil(maxWaitTimeMs / 500)] iterations. *)
Theorem waitForPropagation_polls_are_bounded
    {D : Type} `{Stores D} (JSON_parse : string -> Js.Outcome Post.t)
    (postId : Z) (options : Options) (w : Js.World D Call) :
  exists cs,
    Js.calls (waitForPropagation JSON_parse postId options w).2 = Js.calls w ++ cs
    /\ (length cs <= 2 * Z.to_nat ((maxWaitTimeMs options + 499) / 500))%nat.
Proof.
  unfold waitForPropagation, Js.bind, Js.Date_now, Js.ret. cbn.
  match goal with |- context [iterate ?parse ?id ?o ?start ?n ?st ?w0] =>
    destruct (iterate_calls parse id o start n st w0) as (cs & Hcalls & Hlen);
    destruct (iterate parse id o start n st w0) as [[st'|e] w'] end;
    cbn in Hcalls; exists cs; cbn; split; try exact Hcalls; exact Hlen.
Qed.

(** X21. With a wait budget of zero or less nothing is polled: the
    result reports both projections as not matched, with no times, and
    the stores are not touched. *)
Theorem waitForPropagation_without_budget
    {D : Type} `{Stores D} (JSON_parse : string -> Js.Outcome Post.t)
    (postId : Z) (options : Options) (w : Js.World D Call) :
  maxWaitTimeMs options <= 0 ->
  waitForPropagation JSON_parse postId options w
  = (Js.Resolved
       (mkResult (mkProgress false false None None)
          (Js.clock w (S (Js.ticks w)) - Js.clock w (Js.ticks w))),
     Js.mkWorld (Js.store w) (Js.clock w) (S (S (Js.ticks w)))
       (Js.calls w) (Js.console w)).
Proof.
  intros Hbudget. unfold waitForPropagation, maxIterations.
  assert ((maxWaitTimeMs options + 499) / 500 < 1) as Hnone
    by (apply Z.div_lt_upper_bound; lia).
  replace (Z.to_nat ((maxWaitTimeMs options + 499) / 500)) with 0%nat by lia.
  reflexivity.
Qed.

Lemma waitForPropagation_without_budget_witness :
  (@waitForPropagation unit unreachable parse_nothing 7
     (mkOptions true true 0 None) (fresh tt ticking)).1
  = Js.Resolved (mkResult (mkProgress false false None None) 1).
Proof.
  exact (f_equal fst
    (@waitForPropagation_without_budget unit unreachable parse_nothing 7
       (mkOptions true true 0 None) (fresh tt ticking) ltac:(cbn; lia))).
Defined.

(** X22. The two stores are not treated alike when they fail. An error
    of [es.get] never ends the wait: a look at Elasticsearch always
    returns normally. An error of [redis.get] is not caught: with a wait
    budget above zero and a Redis that rejects every [get],
    [waitForPropagation] itself rejects, with the error of Redis. *)
Theorem waitForPropagation_aborts_on_redis_errors_only
    {D : Type} `{Stores D} (JSON_parse : string -> Js.Outcome Post.t)
    (postId : Z) (options : Options) (e : Js.Error) (w : Js.World D Call) :
  (forall key now d, exists d', redis_get key now d = (Js.Rejected e, d')) ->
  0 < maxWaitTimeMs options ->
  (waitForPropagation JSON_parse postId options w).1 = Js.Rejected e
  /\ (forall startTime st w',
        exists st',
          (checkElasticsearch postId options startTime st w').1 = Js.Resolved st').
Proof.
  intros Hredis Hbudget. split.
  - unfold waitForPropagation, maxIterations.
    assert (0 < (maxWaitTimeMs options + 499) / 500) as Hsome
      by (apply Z.div_str_pos; lia).
    destruct (Z.to_nat ((maxWaitTimeMs options + 499) / 500)) as [|n] eqn:Hn; [lia|].
    unfold Js.bind at 1. unfold Js.Date_now at 1. cbn [fst snd].
    unfold Js.bind at 1. rewrite iterate_step.
    match goal with |- context [checkElasticsearch ?id ?o ?start ?st ?w0] =>
      destruct (checkElasticsearch_facts id o start st w0)
        as (st1 & cs1 & Hes & _ & _ & _ & Hrm & _);
      destruct (checkElasticsearch id o start st w0) as [o1 w1] end.
    cbn in Hes, Hrm. subst o1.
    unfold checkRedis. rewrite Hrm. unfold Js.bind at 1, Js.invoke at 1.
    destruct (Hredis ("post:" +:+ pretty postId) (Js.clock w1 (Js.ticks w1))
                (Js.store w1)) as [d' ->].
    reflexivity.
  - intros startTime st w'.
    destruct (checkElasticsearch_facts postId options startTime st w')
      as (st' & _ & Hes & _).
    eauto.
Qed.

Lemma waitForPropagation_aborts_on_redis_errors_only_witness :
  (@waitForPropagation unit unreachable parse_nothing 7 expect_present
     (fresh tt ticking)).1
  = Js.Rejected (Js.mkError "Connection refused" None).
Proof.
  exact (proj1
    (@waitForPropagation_aborts_on_redis_errors_only unit unreachable parse_nothing
       7 expect_present (Js.mkError "Connection refused" None) (fresh tt ticking)
       (fun _ _ d => ex_intro _ d eq_refl) ltac:(cbn; lia))).
Defined.

(** X23. A projection that has matched is not read again. Once the
    Elasticsearch flag is set, the rest of the loop, however long, only
    ever calls [redis.get], and the Elasticsearch flag and time it
    reports are the ones it started with. *)
Theorem matched_projection_is_not_polled_again
    {D : Type} `{Stores D} (JSON_parse : string -> Js.Outcome Post.t)
    (postId : Z) (options : Options) (startTime : Z) (n : nat)
    (st : Progress) (w : Js.World D Call) :
  esMatched st = true ->
  let r := iterate JSON_parse postId options startTime n st w in
  (exists cs, Js.calls r.2 = Js.calls w ++ cs /\ forallb is_redis_get cs = true)
  /\ (forall st', r.1 = Js.Resolved st' ->
        esMatched st' = true /\ esTime st' = esTime st).
Proof.
  intros Hmatched. revert st w Hmatched.
  induction n as [|n IH]; intros st w Hmatched; cbv zeta.
  - cbn. split.
    + exists []. by rewrite app_nil_r.
    + intros st' [= <-]. done.
  - rewrite iterate_step.
    destruct (checkElasticsearch_facts postId options startTime st (slept w))
      as (st1 & cs1 & Hes & Hcalls1 & _ & _ & _ & _ & Hsame).
    destruct (Hsame Hmatched) as [-> ->]. cbv zeta in *.
    destruct (checkElasticsearch _ _ _ _ _) as [o1 w1]. cbn in Hes, Hcalls1. subst o1.
    rewrite app_nil_r in Hcalls1.
    destruct (checkRedis_facts JSON_parse postId options startTime st w1)
      as (cs2 & Hcalls2 & _ & Hredis & Hkeep & _).
    cbv zeta in *.
    destruct (checkRedis _ _ _ _ _ _) as [[st2|e] w2]; cbn in Hcalls2, Hkeep.
    + destruct (Hkeep st2 eq_refl) as [Hm2 Ht2].
      destruct (esMatched st2 && redisMatched st2).
      * cbn. split.
        -- exists cs2. by rewrite Hcalls2, Hcalls1.
        -- intros st' [= <-]. rewrite Hm2, Ht2. done.
      * destruct (IH st2 w2) as [(cs3 & Hcalls3 & Hredis3) Hkeep3];
          [by rewrite Hm2|].
        cbv zeta in *. split.
        -- exists (cs2 ++ cs3). rewrite Hcalls3, Hcalls2, Hcalls1, <- List.app_assoc.
           split; [reflexivity|]. by rewrite forallb_app, Hredis, Hredis3.
        -- intros st' Hst'. destruct (Hkeep3 st' Hst') as [? ?].
           split; [done | congruence].
    + cbn. split.
      * exists cs2. by rewrite Hcalls2, Hcalls1.
      * intros st' [=].
Qed.

Lemma matched_projection_is_not_polled_again_witness :
  let r := @iterate MockRedis.t redis_only parse_nothing 1 expect_present 0 2
             (mkProgress true false (Some 5) None) (fresh MockRedis.empty ticking) in
  Js.calls r.2 = [RedisGet "post:1"; RedisGet "post:1"]
  /\ (forall st', r.1 = Js.Resolved st' -> esTime st' = Some 5).
Proof.
  pose proof (@matched_projection_is_not_polled_again MockRedis.t redis_only
    parse_nothing 1 expect_present 0 2 (mkProgress true false (Some 5) None)
    (fresh MockRedis.empty ticking) eq_refl) as [_ Hkeep].
  split; [vm_compute; reflexivity|].
  intros st' Hst'. exact (proj2 (Hkeep st' Hst')).
Defined.
